(** * Cloudflare Teams rule resource: a shallow embedding

    The development follows
    [internal/provider/resource_cloudflare_teams_rules.go]:
    the precedence encoding, the flatten and inflate helpers for the nested
    rule settings, and the create, read, update, delete and import
    operations of the resource, run against an arbitrary client. *)

From stdpp Require Import gmap strings list fin_maps.
From Stdlib Require Import ZArith Lia Ascii String.

Local Open Scope string_scope.
Set Warnings "-register-all".

(** ** Go's fixed-width integers

    An [int64] is a [Z] in [-2^63, 2^63); a [uint64] is a [Z] in [0, 2^64).
    Conversions and arithmetic wrap around, written out with [mod]; [/] and
    [%] truncate towards zero ([Z.quot], [Z.rem]). On the 64-bit platforms
    the provider is built for, Go's [int] is 64 bits wide. *)
Module GoInt.

Definition minInt64 : Z := (- 2 ^ 63)%Z.
Definition maxInt64 : Z := (2 ^ 63 - 1)%Z.

Definition to_int64 (z : Z) : Z := ((z + 2 ^ 63) mod 2 ^ 64 - 2 ^ 63)%Z.
Definition to_uint64 (z : Z) : Z := (z mod 2 ^ 64)%Z.

Definition int64_add (x y : Z) : Z := to_int64 (x + y).
Definition int64_sub (x y : Z) : Z := to_int64 (x - y).
Definition int64_mul (x y : Z) : Z := to_int64 (x * y).
Definition int64_quo (x y : Z) : Z := to_int64 (Z.quot x y).
Definition int64_rem (x y : Z) : Z := Z.rem x y.

Definition is_int64 (z : Z) : Prop := (minInt64 <= z <= maxInt64)%Z.

End GoInt.

(** ** Go's [strings] package, for one-byte separators

    Both call sites split on a one-byte separator, so the separator is an
    [ascii]. *)
Module GoStrings.

(** [strings.Contains s substr]. *)
Fixpoint Contains (s substr : string) : bool :=
  String.prefix substr s ||
  match s with
  | EmptyString => false
  | String _ s' => Contains s' substr
  end.

(** [strings.Cut s sep]: the text before and after the first separator. *)
Fixpoint Cut (s : string) (sep : ascii) : option (string * string) :=
  match s with
  | EmptyString => None
  | String c s' =>
      if Ascii.eqb c sep then Some (EmptyString, s')
      else match Cut s' sep with
           | Some (before, after) => Some (String c before, after)
           | None => None
           end
  end.

(** [strings.SplitN s sep n] for [n >= 0]: at most [n] pieces, the last
    one the unsplit remainder. *)
Fixpoint SplitN (s : string) (sep : ascii) (n : nat) : list string :=
  match n with
  | O => []
  | S n' =>
      match n' with
      | O => [s]
      | S _ =>
          match Cut s sep with
          | None => [s]
          | Some (before, after) => before :: SplitN after sep n'
          end
      end
  end.

(** [strings.Split s sep]: every piece between separators; one more piece
    than there are separators. *)
Fixpoint Split (s : string) (sep : ascii) : list string :=
  match s with
  | EmptyString => [EmptyString]
  | String c s' =>
      if Ascii.eqb c sep then EmptyString :: Split s' sep
      else match Split s' sep with
           | [] => [String c EmptyString]
           | piece :: pieces => String c piece :: pieces
           end
  end.

(** [strings.Join elems sep]. *)
Fixpoint Join (elems : list string) (sep : string) : string :=
  match elems with
  | [] => EmptyString
  | [a] => a
  | a :: rest => a ++ sep ++ Join rest sep
  end.

Definition slash : ascii := Ascii.ascii_of_nat 47.
Definition comma : ascii := Ascii.ascii_of_nat 44.

End GoStrings.

(** ** Errors and diagnostics *)
Module GoErrors.

(** An error is a message, possibly wrapping another error (the [%w] verb
    of [fmt.Errorf]). *)
Inductive error : Type :=
| errorString (msg : string)
| wrapError (msg : string) (err : error).

Definition Error (e : error) : string :=
  match e with
  | errorString msg => msg
  | wrapError msg _ => msg
  end.

Definition Unwrap (e : error) : option error :=
  match e with
  | errorString _ => None
  | wrapError _ err => Some err
  end.

(** [fmt.Errorf (context ++ ": %w") err], the context already formatted. *)
Definition Errorf_w (context : string) (err : error) : error :=
  wrapError (context ++ ": " ++ Error err) err.

Inductive Severity : Type := SeverityError | SeverityWarning.

Record Diagnostic : Type := mkDiagnostic {
  DiagSeverity : Severity;
  Summary : string;
  Detail : string
}.

(** [diag.Diagnostics]; [nil] is the empty list. *)
Abbreviation Diagnostics := (list Diagnostic).

(** [diag.FromErr] on a non-nil error. *)
Definition FromErr (err : error) : Diagnostics :=
  [ {| DiagSeverity := SeverityError; Summary := Error err; Detail := EmptyString |} ].

End GoErrors.

Import GoInt GoStrings GoErrors.

(** ** What the file imports from elsewhere

    [hashCodeString] lives in another file of the provider;
    [strconv.Quote] (the [%q] verb), [time.ParseDuration] and
    [Duration.String] are Go's; the resource schema is declared in
    another file, and it decides whether [d.Set] accepts a key
    ([setError key] is the error [d.Set] reports for it, if any). All of
    them are left arbitrary. A duration is its count of nanoseconds. *)
Class Externals : Type := {
  hashCodeString : string -> Z;
  Quote : string -> string;
  ParseDuration : string -> option Z;
  DurationString : Z -> string;
  SchemaMap : Type;
  resourceCloudflareTeamsRuleSchema : SchemaMap;
  setError : string -> option error
}.

(** ** The client library's structs (the fields this file uses)

    A pointer is an [option]; a slice that the code may leave [nil] is an
    [option (list _)], [None] being [nil]; an [http.Header] is a map that
    may be [nil]. *)
Record TeamsL4OverrideSettings : Type := mkL4Override {
  IP : string;
  Port : Z
}.

Record TeamsBISOAdminControlSettings : Type := mkBISO {
  DisablePrinting : bool;
  DisableCopyPaste : bool;
  DisableDownload : bool;
  DisableUpload : bool;
  DisableKeyboard : bool
}.

Record TeamsCheckSessionSettings : Type := mkCheckSession {
  Enforce : bool;
  Duration : Z
}.

Abbreviation Header := (option (gmap string (list string))).

Record TeamsRuleSettings : Type := mkRuleSettings {
  BlockPageEnabled : bool;
  BlockReason : string;
  OverrideIPs : option (list string);
  OverrideHost : string;
  L4Override : option TeamsL4OverrideSettings;
  BISOAdminControls : option TeamsBISOAdminControlSettings;
  CheckSession : option TeamsCheckSessionSettings;
  AddHeaders : Header;
  InsecureDisableDNSSECValidation : bool
}.

(** The zero value of [TeamsRuleSettings]. *)
Definition zeroRuleSettings : TeamsRuleSettings :=
  {| BlockPageEnabled := false; BlockReason := EmptyString;
     OverrideIPs := None; OverrideHost := EmptyString;
     L4Override := None; BISOAdminControls := None; CheckSession := None;
     AddHeaders := None; InsecureDisableDNSSECValidation := false |}.

Record TeamsRule : Type := mkTeamsRule {
  ID : string;
  Name : string;
  Description : string;
  Precedence : Z;
  Enabled : bool;
  Action : string;
  Filters : option (list string);
  Traffic : string;
  Identity : string;
  DevicePosture : string;
  Version : Z;
  RuleSettings : TeamsRuleSettings
}.

(** ** Dynamically typed values ([interface{}])

    The dynamic types that occur in this file. A [[]interface{}] is a
    list: the code only takes its length and ranges over it, so [nil] is
    the empty list. *)
Inductive value : Type :=
| VNil                                   (* the nil interface *)
| VBool (b : bool)                       (* bool *)
| VInt (n : Z)                           (* int *)
| VString (s : string)                   (* string *)
| VStrings (l : option (list string))    (* []string, possibly nil *)
| VList (l : list value)                 (* []interface{} *)
| VMap (m : gmap string value).          (* map[string]interface{} *)

(** A computation that may panic (a failed type assertion). *)
Inductive outcome (A : Type) : Type :=
| Panicked
| Returned (a : A).
Arguments Panicked {A}.
Arguments Returned {A} a.

Definition obind {A B : Type} (o : outcome A) (k : A -> outcome B) : outcome B :=
  match o with
  | Panicked => Panicked
  | Returned a => k a
  end.

Declare Scope outcome_scope.
Delimit Scope outcome_scope with outcome.
Notation "x <- e ;; k" := (obind e (fun x => k))
  (at level 100, e at next level, k at level 200, right associativity) : outcome_scope.

(** Type assertions [v.(T)] in their panicking form. *)
Definition asBool (v : value) : outcome bool :=
  match v with VBool b => Returned b | _ => Panicked end.
Definition asInt (v : value) : outcome Z :=
  match v with VInt n => Returned n | _ => Panicked end.
Definition asString (v : value) : outcome string :=
  match v with VString s => Returned s | _ => Panicked end.
Definition asList (v : value) : outcome (list value) :=
  match v with VList l => Returned l | _ => Panicked end.
Definition asMap (v : value) : outcome (gmap string value) :=
  match v with VMap m => Returned m | _ => Panicked end.

(** [m[key]]: a missing key reads as the nil interface. *)
Definition index (m : gmap string value) (key : string) : value :=
  default VNil (m !! key).

(** [append] on a slice that may be [nil]. *)
Definition append {A : Type} (s : option (list A)) (x : A) : option (list A) :=
  Some (default [] s ++ [x])%list.

(** ** Flatten and inflate helpers (lines 196-363) *)
Section FlattenInflate.
Context {ext : Externals}.
Local Open Scope outcome_scope.

(** Lines 341-349. *)
Definition flattenTeamsL4Override (settings : option TeamsL4OverrideSettings) : list value :=
  match settings with
  | None => []
  | Some settings =>
      [ VMap (<["ip" := VString (IP settings)]>
              (<["port" := VInt (Port settings)]> ∅)) ]
  end.

(** Lines 351-363. *)
Definition inflateTeamsL4Override (settings : value) : outcome (option TeamsL4OverrideSettings) :=
  settingsList <- asList settings ;;
  if negb (Nat.eqb (List.length settingsList) 1) then Returned None
  else
    settingsMap <- asMap (nth 0 settingsList VNil) ;;
    ip <- asString (index settingsMap "ip") ;;
    port <- asInt (index settingsMap "port") ;;
    Returned (Some {| IP := ip; Port := port |}).

(** Lines 246-257. *)
Definition flattenTeamsRuleBisoAdminControls (settings : option TeamsBISOAdminControlSettings) : list value :=
  match settings with
  | None => []
  | Some settings =>
      [ VMap (<["disable_printing" := VBool (DisablePrinting settings)]>
              (<["disable_copy_paste" := VBool (DisableCopyPaste settings)]>
              (<["disable_download" := VBool (DisableDownload settings)]>
              (<["disable_upload" := VBool (DisableUpload settings)]>
              (<["disable_keyboard" := VBool (DisableKeyboard settings)]> ∅))))) ]
  end.

(** Lines 259-268. *)
Definition flattenTeamsCheckSessionSettings (settings : option TeamsCheckSessionSettings) : list value :=
  match settings with
  | None => []
  | Some settings =>
      let duration := DurationString (Duration settings) in
      [ VMap (<["enforce" := VBool (Enforce settings)]>
              (<["duration" := VString duration]> ∅)) ]
  end.

(** Lines 270-288. *)
Definition inflateTeamsRuleBisoAdminControls (settings : value) : outcome (option TeamsBISOAdminControlSettings) :=
  settingsList <- asList settings ;;
  if negb (Nat.eqb (List.length settingsList) 1) then Returned None
  else
    settingsMap <- asMap (nth 0 settingsList VNil) ;;
    disablePrinting <- asBool (index settingsMap "disable_printing") ;;
    disableCopyPaste <- asBool (index settingsMap "disable_copy_paste") ;;
    disableDownload <- asBool (index settingsMap "disable_download") ;;
    disableUpload <- asBool (index settingsMap "disable_upload") ;;
    disableKeyboard <- asBool (index settingsMap "disable_keyboard") ;;
    Returned (Some {| DisablePrinting := disablePrinting;
                      DisableCopyPaste := disableCopyPaste;
                      DisableDownload := disableDownload;
                      DisableUpload := disableUpload;
                      DisableKeyboard := disableKeyboard |}).

(** Lines 290-310. *)
Definition inflateTeamsCheckSessionSettings (settings : value) : outcome (option TeamsCheckSessionSettings) :=
  settingsList <- asList settings ;;
  if negb (Nat.eqb (List.length settingsList) 1) then Returned None
  else
    settingsMap <- asMap (nth 0 settingsList VNil) ;;
    enforce <- asBool (index settingsMap "enforce") ;;
    durationString <- asString (index settingsMap "duration") ;;
    match ParseDuration durationString with
    | None => Returned None
    | Some dur => Returned (Some {| Enforce := enforce; Duration := dur |})
    end.

(** Lines 312-326. The loop visits the keys in an unspecified order
    ([map_fold]); a value that is not a string is skipped. *)
Definition inflateTeamsAddHeaders (settings : value) : outcome (gmap string (list string)) :=
  settingsMap <- asMap settings ;;
  Returned
    (map_fold
       (fun (key : string) (v : value) (ret : gmap string (list string)) =>
          match v with
          | VString v => let s := Split v comma in <[key := s]> ret
          | _ => ret
          end)
       ∅ settingsMap).

(** Lines 328-339. *)
Definition flattenTeamsAddHeaders (settings : Header) : value :=
  match settings with
  | None => VNil
  | Some settings =>
      VMap (map_fold
              (fun (name : string) (v : list string) (ret : gmap string value) =>
                 <[name := VString (Join v ",")]> ret)
              ∅ settings)
  end.

(** Lines 196-208. The caller passes the address of a struct, so the
    argument is the struct itself. *)
Definition flattenTeamsRuleSettings (settings : TeamsRuleSettings) : list value :=
  [ VMap (<["block_page_enabled" := VBool (BlockPageEnabled settings)]>
          (<["block_page_reason" := VString (BlockReason settings)]>
          (<["override_ips" := VStrings (OverrideIPs settings)]>
          (<["override_host" := VString (OverrideHost settings)]>
          (<["l4override" := VList (flattenTeamsL4Override (L4Override settings))]>
          (<["biso_admin_controls" :=
               VList (flattenTeamsRuleBisoAdminControls (BISOAdminControls settings))]>
          (<["check_session" :=
               VList (flattenTeamsCheckSessionSettings (CheckSession settings))]>
          (<["add_headers" := flattenTeamsAddHeaders (AddHeaders settings)]>
          (<["insecure_disable_dnssec_validation" :=
               VBool (InsecureDisableDNSSECValidation settings)]> ∅))))))))) ].

(** The loop of lines 219-222: [overrideIPs] starts as [nil]. *)
Fixpoint appendStrings (acc : option (list string)) (l : list value) : outcome (option (list string)) :=
  match l with
  | [] => Returned acc
  | ip :: rest => s <- asString ip ;; appendStrings (append acc s) rest
  end.

(** Lines 210-244. *)
Definition inflateTeamsRuleSettings (settings : value) : outcome (option TeamsRuleSettings) :=
  settingsList <- asList settings ;;
  if negb (Nat.eqb (List.length settingsList) 1) then Returned None
  else
    settingsMap <- asMap (nth 0 settingsList VNil) ;;
    enabled <- asBool (index settingsMap "block_page_enabled") ;;
    reason <- asString (index settingsMap "block_page_reason") ;;
    ips <- asList (index settingsMap "override_ips") ;;
    overrideIPs <- appendStrings None ips ;;
    overrideHost <- asString (index settingsMap "override_host") ;;
    l4 <- asList (index settingsMap "l4override") ;;
    l4Override <- inflateTeamsL4Override (VList l4) ;;
    biso <- asList (index settingsMap "biso_admin_controls") ;;
    bisoAdminControls <- inflateTeamsRuleBisoAdminControls (VList biso) ;;
    check <- asList (index settingsMap "check_session") ;;
    checkSessionSettings <- inflateTeamsCheckSessionSettings (VList check) ;;
    headers <- asMap (index settingsMap "add_headers") ;;
    addHeaders <- inflateTeamsAddHeaders (VMap headers) ;;
    insecureDisableDNSSECValidation <-
      asBool (index settingsMap "insecure_disable_dnssec_validation") ;;
    Returned (Some {| BlockPageEnabled := enabled;
                      BlockReason := reason;
                      OverrideIPs := overrideIPs;
                      OverrideHost := overrideHost;
                      L4Override := l4Override;
                      BISOAdminControls := bisoAdminControls;
                      CheckSession := checkSessionSettings;
                      AddHeaders := Some addHeaders;
                      InsecureDisableDNSSECValidation := insecureDisableDNSSECValidation |}).

End FlattenInflate.

(** ** Precedence encoding (lines 29 and 365-371) *)
Section Precedence.
Context {ext : Externals}.

Definition rulePrecedenceFactor : Z := 1000.

Definition providerToApiRulePrecedence (provided : Z) (ruleName : string) : Z :=
  int64_add (int64_mul provided rulePrecedenceFactor)
            (int64_rem (to_int64 (hashCodeString ruleName)) rulePrecedenceFactor).

Definition apiToProviderRulePrecedence (apiPrecedence : Z) (ruleName : string) : Z :=
  int64_quo
    (int64_sub (to_int64 apiPrecedence)
               (int64_rem (to_int64 (hashCodeString ruleName)) rulePrecedenceFactor))
    rulePrecedenceFactor.

End Precedence.

(** ** Terraform's resource data

    [d.Get key] returns a value of the type the schema declares for the
    key, so the attributes this file reads with a type assertion are
    typed fields; [rule_settings] stays a dynamic value, which the
    inflate helpers take apart. No operation reads [rule_settings] after
    writing it, so it is stored as handed to [d.Set]. *)
Record ResourceData : Type := mkResourceData {
  rd_Id : string;
  rd_account_id : string;
  rd_name : string;
  rd_description : string;
  rd_precedence : Z;
  rd_enabled : bool;
  rd_action : string;
  rd_filters : list string;
  rd_traffic : string;
  rd_identity : string;
  rd_device_posture : string;
  rd_version : Z;
  rd_rule_settings : value
}.

Definition SetId (v : string) (d : ResourceData) : ResourceData :=
  mkResourceData v (rd_account_id d) (rd_name d) (rd_description d) (rd_precedence d)
    (rd_enabled d) (rd_action d) (rd_filters d) (rd_traffic d) (rd_identity d)
    (rd_device_posture d) (rd_version d) (rd_rule_settings d).
Definition set_account_id (v : string) (d : ResourceData) : ResourceData :=
  mkResourceData (rd_Id d) v (rd_name d) (rd_description d) (rd_precedence d)
    (rd_enabled d) (rd_action d) (rd_filters d) (rd_traffic d) (rd_identity d)
    (rd_device_posture d) (rd_version d) (rd_rule_settings d).
Definition set_name (v : string) (d : ResourceData) : ResourceData :=
  mkResourceData (rd_Id d) (rd_account_id d) v (rd_description d) (rd_precedence d)
    (rd_enabled d) (rd_action d) (rd_filters d) (rd_traffic d) (rd_identity d)
    (rd_device_posture d) (rd_version d) (rd_rule_settings d).
Definition set_description (v : string) (d : ResourceData) : ResourceData :=
  mkResourceData (rd_Id d) (rd_account_id d) (rd_name d) v (rd_precedence d)
    (rd_enabled d) (rd_action d) (rd_filters d) (rd_traffic d) (rd_identity d)
    (rd_device_posture d) (rd_version d) (rd_rule_settings d).
Definition set_precedence (v : Z) (d : ResourceData) : ResourceData :=
  mkResourceData (rd_Id d) (rd_account_id d) (rd_name d) (rd_description d) v
    (rd_enabled d) (rd_action d) (rd_filters d) (rd_traffic d) (rd_identity d)
    (rd_device_posture d) (rd_version d) (rd_rule_settings d).
Definition set_enabled (v : bool) (d : ResourceData) : ResourceData :=
  mkResourceData (rd_Id d) (rd_account_id d) (rd_name d) (rd_description d) (rd_precedence d)
    v (rd_action d) (rd_filters d) (rd_traffic d) (rd_identity d)
    (rd_device_posture d) (rd_version d) (rd_rule_settings d).
Definition set_action (v : string) (d : ResourceData) : ResourceData :=
  mkResourceData (rd_Id d) (rd_account_id d) (rd_name d) (rd_description d) (rd_precedence d)
    (rd_enabled d) v (rd_filters d) (rd_traffic d) (rd_identity d)
    (rd_device_posture d) (rd_version d) (rd_rule_settings d).
Definition set_filters (v : list string) (d : ResourceData) : ResourceData :=
  mkResourceData (rd_Id d) (rd_account_id d) (rd_name d) (rd_description d) (rd_precedence d)
    (rd_enabled d) (rd_action d) v (rd_traffic d) (rd_identity d)
    (rd_device_posture d) (rd_version d) (rd_rule_settings d).
Definition set_traffic (v : string) (d : ResourceData) : ResourceData :=
  mkResourceData (rd_Id d) (rd_account_id d) (rd_name d) (rd_description d) (rd_precedence d)
    (rd_enabled d) (rd_action d) (rd_filters d) v (rd_identity d)
    (rd_device_posture d) (rd_version d) (rd_rule_settings d).
Definition set_identity (v : string) (d : ResourceData) : ResourceData :=
  mkResourceData (rd_Id d) (rd_account_id d) (rd_name d) (rd_description d) (rd_precedence d)
    (rd_enabled d) (rd_action d) (rd_filters d) (rd_traffic d) v
    (rd_device_posture d) (rd_version d) (rd_rule_settings d).
Definition set_device_posture (v : string) (d : ResourceData) : ResourceData :=
  mkResourceData (rd_Id d) (rd_account_id d) (rd_name d) (rd_description d) (rd_precedence d)
    (rd_enabled d) (rd_action d) (rd_filters d) (rd_traffic d) (rd_identity d)
    v (rd_version d) (rd_rule_settings d).
Definition set_version (v : Z) (d : ResourceData) : ResourceData :=
  mkResourceData (rd_Id d) (rd_account_id d) (rd_name d) (rd_description d) (rd_precedence d)
    (rd_enabled d) (rd_action d) (rd_filters d) (rd_traffic d) (rd_identity d)
    (rd_device_posture d) v (rd_rule_settings d).
Definition set_rule_settings (v : value) (d : ResourceData) : ResourceData :=
  mkResourceData (rd_Id d) (rd_account_id d) (rd_name d) (rd_description d) (rd_precedence d)
    (rd_enabled d) (rd_action d) (rd_filters d) (rd_traffic d) (rd_identity d)
    (rd_device_posture d) (rd_version d) v.

(** ** The client, and programs that call it

    A program returns, panics, or puts one request to the client and
    goes on with the answer. A client call answers with the usual Go
    pair of a result and an error that may be [nil] ([None]). *)
Inductive ClientCall : Type -> Type :=
| CallTeamsRule (accountID ruleID : string) : ClientCall (TeamsRule * option error)
| CallTeamsCreateRule (accountID : string) (rule : TeamsRule) :
    ClientCall (TeamsRule * option error)
| CallTeamsUpdateRule (accountID ruleID : string) (rule : TeamsRule) :
    ClientCall (TeamsRule * option error)
| CallTeamsDeleteRule (accountID ruleID : string) : ClientCall (option error).

Inductive Prog (A : Type) : Type :=
| Ret (a : A)
| Panic
| Call {R : Type} (c : ClientCall R) (k : R -> Prog A).
Arguments Ret {A} a.
Arguments Panic {A}.
Arguments Call {A R} c k.

Fixpoint pbind {A B : Type} (p : Prog A) (k : A -> Prog B) : Prog B :=
  match p with
  | Ret a => k a
  | Panic => Panic
  | Call c h => Call c (fun r => pbind (h r) k)
  end.

Definition liftOutcome {A : Type} (o : outcome A) : Prog A :=
  match o with
  | Panicked => Panic
  | Returned a => Ret a
  end.

(** A request as it appears in a log of the calls made. *)
Definition Request : Type := { R : Type & ClientCall R }.
Definition request {R : Type} (c : ClientCall R) : Request := existT R c.

(** A client: some state, and an answer to every call. *)
Record Client : Type := mkClient {
  ClientState : Type;
  answer : forall R : Type, ClientCall R -> ClientState -> R * ClientState
}.

(** Running a program against a client: the outcome, the requests made
    in order, and the client's final state. *)
Fixpoint run {A : Type} (C : Client) (p : Prog A) (s : ClientState C) :
    outcome A * list Request * ClientState C :=
  match p with
  | Ret a => (Returned a, [], s)
  | Panic => (Panicked, [], s)
  | Call c k =>
      let (r, s') := answer C _ c s in
      let '(o, log, s'') := run C (k r) s' in
      (o, request c :: log, s'')
  end.

(** ** The operations of the resource (lines 16-194)

    The [tflog] calls only write to the log and are left out. *)
Section Operations.
Context {ext : Externals}.

(** [d.Set key v]: the schema may refuse the key, and nothing is written. *)
Definition dSet (key : string) (write : ResourceData -> ResourceData) (d : ResourceData) :
    ResourceData * option error :=
  match setError key with
  | Some err => (d, Some err)
  | None => (write d, None)
  end.

(** [if err := d.Set(...); err != nil { return diag.FromErr(fmt.Errorf(msg)) }] *)
Definition setOrReturn (key : string) (write : ResourceData -> ResourceData) (msg : string)
    (d : ResourceData) (k : ResourceData -> Prog (Diagnostics * ResourceData)) :
    Prog (Diagnostics * ResourceData) :=
  match dSet key write d with
  | (d, Some _) => Ret (FromErr (errorString msg), d)
  | (d, None) => k d
  end.

(** Lines 44-77: the rule is written into the resource data, one
    attribute at a time, until a write fails. *)
Definition storeRule (rule : TeamsRule) (d : ResourceData) : Prog (Diagnostics * ResourceData) :=
  setOrReturn "name" (set_name (Name rule)) "error parsing rule name" d (fun d =>
  setOrReturn "description" (set_description (Description rule))
    "error parsing rule description" d (fun d =>
  setOrReturn "precedence"
    (set_precedence (apiToProviderRulePrecedence (Precedence rule) (Name rule)))
    "error parsing rule precedence" d (fun d =>
  setOrReturn "enabled" (set_enabled (Enabled rule)) "error parsing rule enablement" d (fun d =>
  setOrReturn "action" (set_action (Action rule)) "error parsing rule action" d (fun d =>
  setOrReturn "filters" (set_filters (default [] (Filters rule)))
    "error parsing rule filters" d (fun d =>
  setOrReturn "traffic" (set_traffic (Traffic rule)) "error parsing rule traffic" d (fun d =>
  setOrReturn "identity" (set_identity (Identity rule)) "error parsing rule identity" d (fun d =>
  setOrReturn "device_posture" (set_device_posture (DevicePosture rule))
    "error parsing rule device_posture" d (fun d =>
  setOrReturn "version" (set_version (to_int64 (Version rule)))
    "error parsing rule version" d (fun d =>
  setOrReturn "rule_settings"
    (set_rule_settings (VList (flattenTeamsRuleSettings (RuleSettings rule))))
    "error parsing rule settings" d (fun d =>
  Ret ([], d)))))))))))).

(** Lines 31-78. *)
Definition resourceCloudflareTeamsRuleRead (d : ResourceData) : Prog (Diagnostics * ResourceData) :=
  let accountID := rd_account_id d in
  Call (CallTeamsRule accountID (rd_Id d)) (fun '(rule, err) =>
    match err with
    | Some err =>
        if Contains (Error err) "invalid rule id" then
          let d := SetId EmptyString d in
          Ret ([], d)
        else
          Ret (FromErr (Errorf_w ("error finding Teams Rule " ++ Quote (rd_Id d)) err), d)
    | None => storeRule rule d
    end).

(** The loop of lines 86-89 and 126-129: [filters] starts as [nil]. *)
Definition collectFilters (fs : list string) : option (list string) :=
  fold_left (fun filters f => append filters f) fs None.

(** The struct literal of lines 93-104 and 133-145, then lines 106-108. *)
Definition ruleFromData (id : string) (settings : option TeamsRuleSettings) (d : ResourceData) : TeamsRule :=
  let filters := collectFilters (rd_filters d) in
  let ruleName := rd_name d in
  let apiPrecedence := providerToApiRulePrecedence (to_int64 (rd_precedence d)) ruleName in
  {| ID := id;
     Name := ruleName;
     Description := rd_description d;
     Precedence := to_uint64 apiPrecedence;
     Enabled := rd_enabled d;
     Action := rd_action d;
     Filters := filters;
     Traffic := rd_traffic d;
     Identity := rd_identity d;
     DevicePosture := rd_device_posture d;
     Version := to_uint64 (rd_version d);
     RuleSettings := match settings with
                     | Some settings => settings
                     | None => zeroRuleSettings
                     end |}.

(** Lines 80-119. *)
Definition resourceCloudflareTeamsRuleCreate (d : ResourceData) : Prog (Diagnostics * ResourceData) :=
  let accountID := rd_account_id d in
  pbind (liftOutcome (inflateTeamsRuleSettings (rd_rule_settings d))) (fun settings =>
  let newTeamsRule := ruleFromData EmptyString settings d in
  Call (CallTeamsCreateRule accountID newTeamsRule) (fun '(rule, err) =>
    match err with
    | Some err =>
        Ret (FromErr (Errorf_w ("error creating Teams rule for account " ++ Quote accountID) err), d)
    | None =>
        let d := SetId (ID rule) d in
        resourceCloudflareTeamsRuleRead d
    end)).

(** Lines 121-160. *)
Definition resourceCloudflareTeamsRuleUpdate (d : ResourceData) : Prog (Diagnostics * ResourceData) :=
  let accountID := rd_account_id d in
  pbind (liftOutcome (inflateTeamsRuleSettings (rd_rule_settings d))) (fun settings =>
  let teamsRule := ruleFromData (rd_Id d) settings d in
  Call (CallTeamsUpdateRule accountID (ID teamsRule) teamsRule) (fun '(updatedTeamsRule, err) =>
    match err with
    | Some err =>
        Ret (FromErr (Errorf_w ("error updating Teams rule for account " ++ Quote accountID) err), d)
    | None =>
        if String.eqb (ID updatedTeamsRule) EmptyString then
          Ret (FromErr (errorString
                 "failed to find Teams Rule ID in update response; resource was empty"), d)
        else resourceCloudflareTeamsRuleRead d
    end)).

(** Lines 162-175. *)
Definition resourceCloudflareTeamsRuleDelete (d : ResourceData) : Prog (Diagnostics * ResourceData) :=
  let id := rd_Id d in
  let accountID := rd_account_id d in
  Call (CallTeamsDeleteRule accountID id) (fun err =>
    match err with
    | Some err =>
        Ret (FromErr (Errorf_w ("error deleting Teams Rule for account " ++ Quote accountID) err), d)
    | None => resourceCloudflareTeamsRuleRead d
    end).

Definition dquote : string := String (Ascii.ascii_of_nat 34) EmptyString.

(** What the importer hands back: the resources, the error, and the
    resource data as the call leaves it (the list holds that very object). *)
Record ImportResult : Type := mkImportResult {
  imported : list ResourceData;
  importError : option error;
  importData : ResourceData
}.

(** Lines 177-194. *)
Definition resourceCloudflareTeamsRuleImport (d : ResourceData) : Prog ImportResult :=
  let attributes := SplitN (rd_Id d) slash 2 in
  if negb (Nat.eqb (List.length attributes) 2) then
    Ret {| imported := [];
           importError := Some (errorString
             ("invalid id (" ++ dquote ++ rd_Id d ++ dquote
              ++ ") specified, should be in format "
              ++ dquote ++ "accountID/teamsRuleID" ++ dquote));
           importData := d |}
  else
    let accountID := nth 0 attributes EmptyString in
    let teamsRuleID := nth 1 attributes EmptyString in
    let d := fst (dSet "account_id" (set_account_id accountID) d) in
    let d := SetId teamsRuleID d in
    pbind (resourceCloudflareTeamsRuleRead d) (fun '(_, d) =>
    Ret {| imported := [d]; importError := None; importData := d |}).

(** [schema.Resource] and [schema.ResourceImporter], the fields set here. *)
Record ResourceImporter : Type := mkResourceImporter {
  StateContext : ResourceData -> Prog ImportResult
}.

Record Resource : Type := mkResource {
  Schema : SchemaMap;
  ReadContext : ResourceData -> Prog (Diagnostics * ResourceData);
  UpdateContext : ResourceData -> Prog (Diagnostics * ResourceData);
  CreateContext : ResourceData -> Prog (Diagnostics * ResourceData);
  DeleteContext : ResourceData -> Prog (Diagnostics * ResourceData);
  Importer : option ResourceImporter
}.

(** Lines 16-27. *)
Definition resourceCloudflareTeamsRule : Resource :=
  {| Schema := resourceCloudflareTeamsRuleSchema;
     ReadContext := resourceCloudflareTeamsRuleRead;
     UpdateContext := resourceCloudflareTeamsRuleUpdate;
     CreateContext := resourceCloudflareTeamsRuleCreate;
     DeleteContext := resourceCloudflareTeamsRuleDelete;
     Importer := Some {| StateContext := resourceCloudflareTeamsRuleImport |} |}.

End Operations.

(** ** Sample inputs

    A concrete choice of the imported functions, two clients and a
    resource, on which the theorems below are instantiated. *)
Definition sampleExternals : Externals :=
  {| hashCodeString := fun s => (Z.of_nat (String.length s) * 7919)%Z;
     Quote := fun s => dquote ++ s ++ dquote;
     ParseDuration := fun s => if String.eqb s "0s" then Some 0%Z else None;
     DurationString := fun _ => "0s";
     SchemaMap := unit;
     resourceCloudflareTeamsRuleSchema := tt;
     setError := fun _ => None |}.

Definition sampleRule : TeamsRule :=
  {| ID := "rule-1"; Name := "block-ads"; Description := "blocks ads";
     Precedence := 12345; Enabled := true; Action := "block";
     Filters := Some ["dns"]; Traffic := "any(dns.domains[*] == x)";
     Identity := EmptyString; DevicePosture := EmptyString; Version := 1;
     RuleSettings := zeroRuleSettings |}.

Definition sampleData : ResourceData :=
  {| rd_Id := EmptyString; rd_account_id := "acct"; rd_name := "block-ads";
     rd_description := "blocks ads"; rd_precedence := 12; rd_enabled := true;
     rd_action := "block"; rd_filters := ["dns"];
     rd_traffic := "any(dns.domains[*] == x)"; rd_identity := EmptyString;
     rd_device_posture := EmptyString; rd_version := 1;
     rd_rule_settings := VList [] |}.

(** A client without state on which every call succeeds. *)
Definition acceptingClient : Client :=
  {| ClientState := unit;
     answer := fun (R : Type) (c : ClientCall R) (s : unit) =>
       match c in ClientCall R0 return R0 * unit with
       | CallTeamsRule _ _ => ((sampleRule, None), s)
       | CallTeamsCreateRule _ _ => ((sampleRule, None), s)
       | CallTeamsUpdateRule _ _ _ => ((sampleRule, None), s)
       | CallTeamsDeleteRule _ _ => (None, s)
       end |}.

(** A client on which every call fails with the given message. *)
Definition failingClient (msg : string) : Client :=
  {| ClientState := unit;
     answer := fun (R : Type) (c : ClientCall R) (s : unit) =>
       match c in ClientCall R0 return R0 * unit with
       | CallTeamsRule _ _ => ((sampleRule, Some (errorString msg)), s)
       | CallTeamsCreateRule _ _ => ((sampleRule, Some (errorString msg)), s)
       | CallTeamsUpdateRule _ _ _ => ((sampleRule, Some (errorString msg)), s)
       | CallTeamsDeleteRule _ _ => (Some (errorString msg), s)
       end |}.

Definition sampleSettings : TeamsRuleSettings :=
  {| BlockPageEnabled := true; BlockReason := "ads are blocked";
     OverrideIPs := Some ["1.2.3.4"]; OverrideHost := "example.com";
     L4Override := Some {| IP := "10.0.0.1"; Port := 8080 |};
     BISOAdminControls := Some (mkBISO true false true false true);
     CheckSession := Some {| Enforce := true; Duration := 0 |};
     AddHeaders := Some {[ "X-Env" := ["prod"; "eu"] ]};
     InsecureDisableDNSSECValidation := false |}.

(** The map that [flattenTeamsRuleSettings] builds for [sampleSettings]. *)
Definition sampleFlattened : gmap string value :=
  match @flattenTeamsRuleSettings sampleExternals sampleSettings with
  | [VMap m] => m
  | _ => ∅
  end.

(** A client that keeps one rule: create and update store what they are
    sent (create under a fresh ID), delete drops it, and the lookup
    answers with the stored rule or reports it missing. *)
Definition withID (id : string) (rule : TeamsRule) : TeamsRule :=
  {| ID := id; Name := Name rule; Description := Description rule;
     Precedence := Precedence rule; Enabled := Enabled rule; Action := Action rule;
     Filters := Filters rule; Traffic := Traffic rule; Identity := Identity rule;
     DevicePosture := DevicePosture rule; Version := Version rule;
     RuleSettings := RuleSettings rule |}.

Definition storeClient : Client :=
  {| ClientState := option TeamsRule;
     answer := fun (R : Type) (c : ClientCall R) (s : option TeamsRule) =>
       match c in ClientCall R0 return R0 * option TeamsRule with
       | CallTeamsRule _ _ =>
           match s with
           | Some rule => ((rule, None), s)
           | None => ((sampleRule, Some (errorString "invalid rule id")), s)
           end
       | CallTeamsCreateRule _ rule =>
           ((withID "rule-1" rule, None), Some (withID "rule-1" rule))
       | CallTeamsUpdateRule _ _ rule => ((rule, None), Some rule)
       | CallTeamsDeleteRule _ _ => (None, None)
       end |}.

(** ** Vocabulary of the statements *)

(** The requests a run makes, in order. *)
Definition calls {A : Type} (C : Client) (p : Prog A) (s : ClientState C) : list Request :=
  snd (fst (run C p s)).

(** The program returns at once, with a result that satisfies [P]. *)
Definition returns {A : Type} (P : A -> Prop) (p : Prog A) : Prop :=
  exists a, p = Ret a /\ P a.

(** What the loop of [inflateTeamsAddHeaders] computes for one entry. *)
Definition headerValues (v : value) : option (list string) :=
  match v with
  | VString v => Some (Split v comma)
  | _ => None
  end.

(** The attributes that lines 44-77 write, in their order. *)
Definition storedKeys : list string :=
  [ "name"; "description"; "precedence"; "enabled"; "action"; "filters";
    "traffic"; "identity"; "device_posture"; "version"; "rule_settings" ].

(** The resource data once all of lines 44-77 have written [rule]. *)
Definition storedData {ext : Externals} (rule : TeamsRule) (d : ResourceData) : ResourceData :=
  {| rd_Id := rd_Id d;
     rd_account_id := rd_account_id d;
     rd_name := Name rule;
     rd_description := Description rule;
     rd_precedence := apiToProviderRulePrecedence (Precedence rule) (Name rule);
     rd_enabled := Enabled rule;
     rd_action := Action rule;
     rd_filters := default [] (Filters rule);
     rd_traffic := Traffic rule;
     rd_identity := Identity rule;
     rd_device_posture := DevicePosture rule;
     rd_version := to_int64 (Version rule);
     rd_rule_settings := VList (flattenTeamsRuleSettings (RuleSettings rule)) |}.

(** What a header's values become when joined and split again. *)
Definition rejoined (vs : list string) : list string := Split (Join vs ",") comma.

(** * Theorems *)

(** ** Fixed-width arithmetic *)
Section GoIntFacts.
Local Open Scope Z_scope.

Lemma to_int64_id z : is_int64 z -> to_int64 z = z.
Proof.
  unfold is_int64, minInt64, maxInt64, to_int64. intros Hz.
  rewrite Z.mod_small; lia.
Qed.

Lemma to_int64_range z : is_int64 (to_int64 z).
Proof.
  unfold is_int64, minInt64, maxInt64, to_int64.
  pose proof (Z.mod_pos_bound (z + 2 ^ 63) (2 ^ 64)). lia.
Qed.

(** Wrapping an operand first does not change a wrapped sum. *)
Lemma to_int64_add_l x y : to_int64 (to_int64 x + y) = to_int64 (x + y).
Proof.
  unfold to_int64.
  replace ((x + 2 ^ 63) mod 2 ^ 64 - 2 ^ 63 + y + 2 ^ 63)
    with ((x + 2 ^ 63) mod 2 ^ 64 + y) by lia.
  rewrite Zplus_mod_idemp_l. f_equal. f_equal. lia.
Qed.

Lemma to_uint64_id z : 0 <= z <= maxInt64 -> to_uint64 z = z.
Proof.
  unfold maxInt64, to_uint64. intros Hz. apply Z.mod_small. lia.
Qed.

Lemma rem_factor_bound x : 0 <= x -> 0 <= Z.rem x 1000 < 1000.
Proof. intros Hx. apply Z.rem_bound_pos; lia. Qed.

End GoIntFacts.

(** ** Precedence *)
Section PrecedenceFacts.
Context {ext : Externals}.
Local Open Scope Z_scope.

Lemma providerToApi_wrapped (p : Z) (name : string) :
  providerToApiRulePrecedence p name
    = to_int64 (p * 1000 + Z.rem (to_int64 (hashCodeString name)) 1000).
Proof.
  unfold providerToApiRulePrecedence, int64_add, int64_mul, int64_rem, rulePrecedenceFactor.
  apply to_int64_add_l.
Qed.

Lemma providerToApi_exact (p : Z) (name : string) :
  is_int64 (hashCodeString name) ->
  is_int64 (p * 1000 + Z.rem (hashCodeString name) 1000) ->
  providerToApiRulePrecedence p name = p * 1000 + Z.rem (hashCodeString name) 1000.
Proof.
  intros Hh Hfit.
  rewrite providerToApi_wrapped, (to_int64_id _ Hh). apply to_int64_id, Hfit.
Qed.

(** C2. [providerToApiRulePrecedence p name] is [p] times the factor 1000
    plus the truncated remainder of the name's hash modulo 1000, computed
    in [int64]; when that sum fits in an [int64] it is the sum itself. *)
Theorem providerToApiRulePrecedence_formula (p : Z) (name : string) :
  rulePrecedenceFactor = 1000 /\
  providerToApiRulePrecedence p name
    = to_int64 (p * 1000 + Z.rem (to_int64 (hashCodeString name)) 1000) /\
  (is_int64 (hashCodeString name) ->
   is_int64 (p * 1000 + Z.rem (hashCodeString name) 1000) ->
   providerToApiRulePrecedence p name = p * 1000 + Z.rem (hashCodeString name) 1000).
Proof.
  split; [reflexivity | split].
  - apply providerToApi_wrapped.
  - apply providerToApi_exact.
Qed.

(** C1. Encoding a non-negative precedence and decoding it gives the
    precedence back, for a non-negative hash, when the encoded value fits
    in an [int64]; with or without the [uint64] conversion that create
    and update put in between. *)
Theorem precedence_roundtrip (p : Z) (name : string) :
  0 <= p ->
  0 <= hashCodeString name <= maxInt64 ->
  p * 1000 + Z.rem (hashCodeString name) 1000 <= maxInt64 ->
  apiToProviderRulePrecedence (providerToApiRulePrecedence p name) name = p /\
  apiToProviderRulePrecedence (to_uint64 (providerToApiRulePrecedence p name)) name = p.
Proof.
  intros Hp Hh Hfit.
  pose proof (rem_factor_bound (hashCodeString name) (proj1 Hh)) as Hr.
  assert (Hh' : is_int64 (hashCodeString name))
    by (unfold is_int64, minInt64, maxInt64 in *; lia).
  rewrite providerToApi_exact
    by (assumption || (unfold is_int64, minInt64, maxInt64 in *; lia)).
  rewrite to_uint64_id by lia.
  unfold apiToProviderRulePrecedence, int64_quo, int64_sub, int64_rem, rulePrecedenceFactor.
  rewrite (to_int64_id _ Hh').
  rewrite (to_int64_id (p * 1000 + _))
    by (unfold is_int64, minInt64, maxInt64 in *; lia).
  replace (p * 1000 + Z.rem (hashCodeString name) 1000 - Z.rem (hashCodeString name) 1000)
    with (p * 1000) by lia.
  rewrite (to_int64_id (p * 1000))
    by (unfold is_int64, minInt64, maxInt64 in *; lia).
  rewrite Z.quot_mul by lia.
  rewrite to_int64_id by (unfold is_int64, minInt64, maxInt64 in *; lia).
  split; reflexivity.
Qed.

End PrecedenceFacts.

Lemma providerToApiRulePrecedence_formula_witness :
  @providerToApiRulePrecedence sampleExternals 12 "block-ads" = 12271%Z.
Proof.
  destruct (@providerToApiRulePrecedence_formula sampleExternals 12 "block-ads")
    as (_ & _ & Hexact).
  rewrite Hexact; [reflexivity | |]; vm_compute; split; discriminate.
Defined.

Lemma precedence_roundtrip_witness :
  @apiToProviderRulePrecedence sampleExternals
    (@providerToApiRulePrecedence sampleExternals 12 "block-ads") "block-ads" = 12%Z /\
  @apiToProviderRulePrecedence sampleExternals
    (to_uint64 (@providerToApiRulePrecedence sampleExternals 12 "block-ads")) "block-ads"
    = 12%Z.
Proof.
  apply (@precedence_roundtrip sampleExternals 12 "block-ads").
  - lia.
  - vm_compute. split; discriminate.
  - vm_compute. discriminate.
Defined.

(** ** Strings *)
Section StringFacts.

Lemma Split_nonempty (s : string) (sep : ascii) : Split s sep <> [].
Proof.
  destruct s as [|c s]; simpl; [discriminate|].
  destruct (Ascii.eqb c sep); [discriminate|].
  destruct (Split s sep); discriminate.
Qed.

(** Joining the pieces of a split with the separator restores the string. *)
Lemma Join_Split (s : string) : Join (Split s comma) "," = s.
Proof.
  induction s as [|c s IH]; simpl; [reflexivity|].
  pose proof (Split_nonempty s comma) as Hne.
  destruct (Ascii.eqb c comma) eqn:Hc.
  - apply Ascii.eqb_eq in Hc. subst c.
    destruct (Split s comma) as [|piece pieces]; [contradiction|].
    change (Join (EmptyString :: piece :: pieces) ",")
      with (EmptyString ++ "," ++ Join (piece :: pieces) ",").
    rewrite IH. reflexivity.
  - destruct (Split s comma) as [|piece pieces]; [contradiction|].
    destruct pieces as [|piece' pieces].
    + simpl in *. congruence.
    + change (Join (String c piece :: piece' :: pieces) ",")
        with (String c (piece ++ "," ++ Join (piece' :: pieces) ",")).
      change (Join (piece :: piece' :: pieces) ",")
        with (piece ++ "," ++ Join (piece' :: pieces) ",") in IH.
      rewrite IH. reflexivity.
Qed.

Lemma Contains_byte_cons (c sep : ascii) (s : string) :
  Contains (String c s) (String sep EmptyString)
  = Ascii.eqb c sep || Contains s (String sep EmptyString).
Proof.
  simpl. destruct (ascii_dec sep c) as [->|Hne].
  - rewrite Ascii.eqb_refl. destruct s; reflexivity.
  - destruct (Ascii.eqb c sep) eqn:Hc; [|reflexivity].
    apply Ascii.eqb_eq in Hc. congruence.
Qed.

(** A string without the separator cannot be cut. *)
Lemma Cut_without (s : string) (sep : ascii) :
  Contains s (String sep EmptyString) = false -> Cut s sep = None.
Proof.
  induction s as [|c s IH]; [reflexivity|].
  rewrite Contains_byte_cons. intros H.
  apply orb_false_iff in H as [Hc Hs]. simpl. rewrite Hc, (IH Hs). reflexivity.
Qed.

(** A cut is at the first separator. *)
Lemma Cut_first (before after : string) (sep : ascii) :
  Contains before (String sep EmptyString) = false ->
  Cut (before ++ String sep after) sep = Some (before, after).
Proof.
  induction before as [|c s IH]; simpl append.
  - intros _. simpl. rewrite Ascii.eqb_refl. reflexivity.
  - rewrite Contains_byte_cons. intros H.
    apply orb_false_iff in H as [Hc Hs]. simpl. rewrite Hc, (IH Hs). reflexivity.
Qed.

End StringFacts.

(** ** The add_headers conversion *)
Section HeaderFacts.
Context {ext : Externals}.

(** The inflate loop does not depend on the order of the keys: it keeps
    the string entries, each split at the commas. *)
Lemma inflateTeamsAddHeaders_omap (m : gmap string value) :
  inflateTeamsAddHeaders (VMap m) = Returned (omap headerValues m).
Proof.
  unfold inflateTeamsAddHeaders. simpl. f_equal.
  apply (map_fold_weak_ind (fun r m => r = omap headerValues m)).
  - symmetry. apply omap_empty.
  - intros key v m' r Hfresh ->.
    destruct (headerValues v) as [s|] eqn:Hv.
    + rewrite (omap_insert_Some _ _ _ _ _ Hv).
      destruct v; simpl in Hv; try discriminate. congruence.
    + rewrite (omap_insert_None _ _ _ _ Hv).
      rewrite delete_id by (rewrite lookup_omap, Hfresh; reflexivity).
      destruct v; simpl in Hv; try discriminate; reflexivity.
Qed.

(** Nor does the flatten loop: it joins every entry with commas. *)
Lemma flattenTeamsAddHeaders_fmap (h : gmap string (list string)) :
  flattenTeamsAddHeaders (Some h) = VMap ((fun v => VString (Join v ",")) <$> h).
Proof.
  unfold flattenTeamsAddHeaders. f_equal.
  apply (map_fold_weak_ind (fun r m => r = (fun v => VString (Join v ",")) <$> m)).
  - symmetry. apply fmap_empty.
  - intros key v m' r _ ->.
    rewrite (fmap_insert (fun v => VString (Join v ",")) m' key v). reflexivity.
Qed.

(** C10. A map whose values are all strings comes back unchanged from
    [inflateTeamsAddHeaders] followed by [flattenTeamsAddHeaders]. *)
Theorem add_headers_roundtrip (m : gmap string value) :
  (forall (key : string) (v : value), m !! key = Some v -> exists s, v = VString s) ->
  exists h : gmap string (list string),
    inflateTeamsAddHeaders (VMap m) = Returned h /\
    flattenTeamsAddHeaders (Some h) = VMap m /\
    (forall (key : string) (s : string),
       m !! key = Some (VString s) ->
       h !! key = Some (Split s comma) /\ Join (Split s comma) "," = s).
Proof.
  intros Hstrings. exists (omap headerValues m). split; [|split].
  - apply inflateTeamsAddHeaders_omap.
  - rewrite flattenTeamsAddHeaders_fmap. f_equal. apply map_eq. intros key.
    rewrite lookup_fmap, lookup_omap.
    destruct (m !! key) as [v|] eqn:Hkey; [|reflexivity].
    destruct (Hstrings key v Hkey) as [s ->]. simpl. rewrite Join_Split. reflexivity.
  - intros key s Hkey. rewrite lookup_omap, Hkey. split; [reflexivity | apply Join_Split].
Qed.

End HeaderFacts.

(** ** Flatten and inflate *)
Section InflateFacts.
Context {ext : Externals}.

(** C9. Every inflate helper returns nil on a list whose length is not
    1, and [inflateTeamsCheckSessionSettings] also returns nil on a
    one-element list whose duration text does not parse. *)
Theorem inflate_absent :
  (forall l : list value,
     List.length l <> 1 ->
     inflateTeamsRuleSettings (VList l) = Returned None /\
     inflateTeamsRuleBisoAdminControls (VList l) = Returned None /\
     inflateTeamsCheckSessionSettings (VList l) = Returned None /\
     inflateTeamsL4Override (VList l) = Returned None) /\
  (forall (m : gmap string value) (enforce : bool) (durationString : string),
     m !! "enforce" = Some (VBool enforce) ->
     m !! "duration" = Some (VString durationString) ->
     ParseDuration durationString = None ->
     inflateTeamsCheckSessionSettings (VList [VMap m]) = Returned None).
Proof.
  split.
  - intros l Hlen.
    assert (Hne : negb (Nat.eqb (List.length l) 1) = true)
      by (apply negb_true_iff, Nat.eqb_neq, Hlen).
    unfold inflateTeamsRuleSettings, inflateTeamsRuleBisoAdminControls,
      inflateTeamsCheckSessionSettings, inflateTeamsL4Override.
    simpl. rewrite Hne. repeat split.
  - intros m enforce durationString Henforce Hduration Hparse.
    unfold inflateTeamsCheckSessionSettings, index. simpl.
    rewrite Henforce, Hduration. simpl. rewrite Hparse. reflexivity.
Qed.

Lemma appendStrings_strings (acc : option (list string)) (l : list string) :
  appendStrings acc (VString <$> l)
  = Returned match l with
             | [] => acc
             | _ :: _ => Some (default [] acc ++ l)%list
             end.
Proof.
  revert acc. induction l as [|x l IH]; intros acc; [reflexivity|].
  simpl. rewrite IH. unfold append. simpl.
  destruct l; [reflexivity|]. rewrite <- app_assoc. reflexivity.
Qed.

Lemma l4override_roundtrip (x : option TeamsL4OverrideSettings) :
  inflateTeamsL4Override (VList (flattenTeamsL4Override x)) = Returned x.
Proof. destruct x as [[ip port]|]; reflexivity. Qed.

Lemma biso_roundtrip (x : option TeamsBISOAdminControlSettings) :
  inflateTeamsRuleBisoAdminControls (VList (flattenTeamsRuleBisoAdminControls x))
  = Returned x.
Proof. destruct x as [[]|]; reflexivity. Qed.

Lemma check_session_roundtrip (x : option TeamsCheckSessionSettings) :
  (forall c, x = Some c -> ParseDuration (DurationString (Duration c)) = Some (Duration c)) ->
  inflateTeamsCheckSessionSettings (VList (flattenTeamsCheckSessionSettings x))
  = Returned x.
Proof.
  destruct x as [[enforce dur]|]; [|reflexivity]. intros Hparse.
  change (inflateTeamsCheckSessionSettings
            (VList (flattenTeamsCheckSessionSettings (Some (mkCheckSession enforce dur)))))
    with (match ParseDuration (DurationString dur) with
          | None => Returned None
          | Some dur' => Returned (Some (mkCheckSession enforce dur'))
          end).
  specialize (Hparse _ eq_refl). simpl in Hparse. rewrite Hparse. reflexivity.
Qed.

Lemma settings_panic (s : TeamsRuleSettings) :
  inflateTeamsRuleSettings (VList (flattenTeamsRuleSettings s)) = Panicked.
Proof. destruct s. reflexivity. Qed.

(** [inflateTeamsRuleSettings] on a one-element list, read off the
    entries of its map. *)
Lemma inflateTeamsRuleSettings_entries (m : gmap string value)
    (enabled : bool) (reason : string) (ips : list value) (host : string)
    (l4 biso check : list value) (headers : value) (insecure : bool) :
  index m "block_page_enabled" = VBool enabled ->
  index m "block_page_reason" = VString reason ->
  index m "override_ips" = VList ips ->
  index m "override_host" = VString host ->
  index m "l4override" = VList l4 ->
  index m "biso_admin_controls" = VList biso ->
  index m "check_session" = VList check ->
  index m "add_headers" = headers ->
  index m "insecure_disable_dnssec_validation" = VBool insecure ->
  inflateTeamsRuleSettings (VList [VMap m])
  = (overrideIPs <- appendStrings None ips ;;
     l4Override <- inflateTeamsL4Override (VList l4) ;;
     bisoAdminControls <- inflateTeamsRuleBisoAdminControls (VList biso) ;;
     checkSessionSettings <- inflateTeamsCheckSessionSettings (VList check) ;;
     headersMap <- asMap headers ;;
     addHeaders <- inflateTeamsAddHeaders (VMap headersMap) ;;
     Returned (Some (mkRuleSettings enabled reason overrideIPs host l4Override
                       bisoAdminControls checkSessionSettings (Some addHeaders)
                       insecure)))%outcome.
Proof.
  intros H1 H2 H3 H4 H5 H6 H7 H8 H9.
  unfold inflateTeamsRuleSettings. simpl.
  rewrite H1, H2, H3, H4, H5, H6, H7, H8, H9. reflexivity.
Qed.

(** The flattened map with override_ips presented as a slice of
    interfaces that holds the same strings. *)
Lemma retyped_entries (s : TeamsRuleSettings) (m : gmap string value) :
  flattenTeamsRuleSettings s = [VMap m] ->
  inflateTeamsRuleSettings
    (VList [VMap (<["override_ips" := VList (VString <$> default [] (OverrideIPs s))]> m)])
  = (overrideIPs <- appendStrings None (VString <$> default [] (OverrideIPs s)) ;;
     l4Override <- inflateTeamsL4Override (VList (flattenTeamsL4Override (L4Override s))) ;;
     bisoAdminControls <-
       inflateTeamsRuleBisoAdminControls
         (VList (flattenTeamsRuleBisoAdminControls (BISOAdminControls s))) ;;
     checkSessionSettings <-
       inflateTeamsCheckSessionSettings
         (VList (flattenTeamsCheckSessionSettings (CheckSession s))) ;;
     headersMap <- asMap (flattenTeamsAddHeaders (AddHeaders s)) ;;
     addHeaders <- inflateTeamsAddHeaders (VMap headersMap) ;;
     Returned (Some (mkRuleSettings (BlockPageEnabled s) (BlockReason s) overrideIPs
                       (OverrideHost s) l4Override bisoAdminControls checkSessionSettings
                       (Some addHeaders) (InsecureDisableDNSSECValidation s))))%outcome.
Proof.
  unfold flattenTeamsRuleSettings. intros Hflat. injection Hflat as <-.
  apply inflateTeamsRuleSettings_entries; reflexivity.
Qed.

Lemma retyped_roundtrip (s : TeamsRuleSettings) (h : gmap string (list string))
    (m : gmap string value) :
  AddHeaders s = Some h ->
  (forall (key : string) (vs : list string),
     h !! key = Some vs -> Split (Join vs ",") comma = vs) ->
  OverrideIPs s <> Some [] ->
  (forall c, CheckSession s = Some c ->
             ParseDuration (DurationString (Duration c)) = Some (Duration c)) ->
  flattenTeamsRuleSettings s = [VMap m] ->
  inflateTeamsRuleSettings
    (VList [VMap (<["override_ips" := VList (VString <$> default [] (OverrideIPs s))]> m)])
  = Returned (Some s).
Proof.
  intros Hadd Hheaders Hips Hcheck Hflat.
  rewrite (retyped_entries s m Hflat), Hadd.
  rewrite appendStrings_strings, l4override_roundtrip, biso_roundtrip,
    (check_session_roundtrip _ Hcheck), flattenTeamsAddHeaders_fmap.
  cbn [obind asMap]. rewrite inflateTeamsAddHeaders_omap. cbn [obind].
  assert (Hh : omap headerValues ((fun v => VString (Join v ",")) <$> h) = h).
  { apply map_eq. intros key. rewrite lookup_omap, lookup_fmap.
    destruct (h !! key) as [vs|] eqn:Hkey; [|reflexivity].
    simpl. rewrite (Hheaders key vs Hkey). reflexivity. }
  rewrite Hh.
  destruct s as [enabled reason ips host l4 biso check headers insecure].
  simpl in *. subst headers. do 2 f_equal.
  destruct ips as [[|ip ips]|]; [contradiction| |]; reflexivity.
Qed.

Lemma check_session_returns (x : option TeamsCheckSessionSettings) :
  exists r, inflateTeamsCheckSessionSettings (VList (flattenTeamsCheckSessionSettings x))
            = Returned r.
Proof.
  destruct x as [[enforce dur]|]; [|eexists; reflexivity].
  change (inflateTeamsCheckSessionSettings
            (VList (flattenTeamsCheckSessionSettings (Some (mkCheckSession enforce dur)))))
    with (match ParseDuration (DurationString dur) with
          | None => Returned None
          | Some dur' => Returned (Some (mkCheckSession enforce dur'))
          end).
  destruct (ParseDuration (DurationString dur)); eexists; reflexivity.
Qed.

(** A nil header map flattens to the nil interface, which inflate
    asserts to be a map. *)
Lemma retyped_nil_headers_panic (s : TeamsRuleSettings) (m : gmap string value) :
  AddHeaders s = None ->
  flattenTeamsRuleSettings s = [VMap m] ->
  inflateTeamsRuleSettings
    (VList [VMap (<["override_ips" := VList (VString <$> default [] (OverrideIPs s))]> m)])
  = Panicked.
Proof.
  intros Hadd Hflat.
  rewrite (retyped_entries s m Hflat), Hadd.
  rewrite appendStrings_strings, l4override_roundtrip, biso_roundtrip.
  destruct (check_session_returns (CheckSession s)) as [r ->]. reflexivity.
Qed.

(** C4, as amended. The direct composition panics on every settings
    value: the flattened override_ips is a slice of strings, which inflate
    asserts to be a slice of interfaces. The nested blocks round-trip on
    their own, absent or present (the session block when its duration text
    parses back). Once override_ips is presented as a slice of interfaces
    holding the same strings, the whole value round-trips when AddHeaders
    is not nil and each header survives join-then-split, OverrideIPs is
    not an empty non-nil slice, and the session duration parses back; with
    a nil AddHeaders inflate still panics. *)
Theorem settings_roundtrip :
  (forall s : TeamsRuleSettings,
     inflateTeamsRuleSettings (VList (flattenTeamsRuleSettings s)) = Panicked) /\
  (forall x, inflateTeamsL4Override (VList (flattenTeamsL4Override x)) = Returned x) /\
  (forall x, inflateTeamsRuleBisoAdminControls (VList (flattenTeamsRuleBisoAdminControls x))
             = Returned x) /\
  (forall x,
     (forall c, x = Some c -> ParseDuration (DurationString (Duration c)) = Some (Duration c)) ->
     inflateTeamsCheckSessionSettings (VList (flattenTeamsCheckSessionSettings x))
     = Returned x) /\
  (forall (s : TeamsRuleSettings) (h : gmap string (list string)) (m : gmap string value),
     AddHeaders s = Some h ->
     (forall (key : string) (vs : list string),
        h !! key = Some vs -> Split (Join vs ",") comma = vs) ->
     OverrideIPs s <> Some [] ->
     (forall c, CheckSession s = Some c ->
                ParseDuration (DurationString (Duration c)) = Some (Duration c)) ->
     flattenTeamsRuleSettings s = [VMap m] ->
     inflateTeamsRuleSettings
       (VList [VMap (<["override_ips" := VList (VString <$> default [] (OverrideIPs s))]> m)])
     = Returned (Some s)) /\
  (forall (s : TeamsRuleSettings) (m : gmap string value),
     AddHeaders s = None ->
     flattenTeamsRuleSettings s = [VMap m] ->
     inflateTeamsRuleSettings
       (VList [VMap (<["override_ips" := VList (VString <$> default [] (OverrideIPs s))]> m)])
     = Panicked).
Proof.
  split; [exact settings_panic|].
  split; [exact l4override_roundtrip|].
  split; [exact biso_roundtrip|].
  split; [exact check_session_roundtrip|].
  split; [exact retyped_roundtrip | exact retyped_nil_headers_panic].
Qed.

End InflateFacts.

(** ** The operations *)
Section OperationFacts.
Context {ext : Externals}.

Lemma setOrReturn_returns (I : ResourceData -> Prop) (key : string)
    (write : ResourceData -> ResourceData) (msg : string) (d : ResourceData)
    (k : ResourceData -> Prog (Diagnostics * ResourceData)) :
  I d ->
  (forall d', I d' -> I (write d')) ->
  (forall d', I d' -> returns (fun r => I (snd r)) (k d')) ->
  returns (fun r => I (snd r)) (setOrReturn key write msg d k).
Proof.
  intros Hd Hwrite Hk. unfold setOrReturn, dSet.
  destruct (setError key) as [err|].
  - eexists. split; [reflexivity | exact Hd].
  - apply Hk, Hwrite, Hd.
Qed.

(** Writing the rule never touches the ID or the account, makes no
    request, and always returns. *)
Lemma storeRule_returns (rule : TeamsRule) (id acct : string) (d : ResourceData) :
  rd_Id d = id /\ rd_account_id d = acct ->
  returns (fun r => rd_Id (snd r) = id /\ rd_account_id (snd r) = acct) (storeRule rule d).
Proof.
  intros Hd. unfold storeRule.
  repeat (apply (setOrReturn_returns (fun d' => rd_Id d' = id /\ rd_account_id d' = acct));
          [ assumption | intros d' Hd'; exact Hd' | clear d Hd; intros d Hd; cbv beta ]).
  eexists. split; [reflexivity | assumption].
Qed.

(** Read makes one request and returns; it keeps the account, and keeps
    the ID unless the request fails with the sentinel message. *)
Lemma run_read (C : Client) (s : ClientState C) (d : ResourceData) :
  exists diags d',
    run C (resourceCloudflareTeamsRuleRead d) s
    = (Returned (diags, d'),
       [request (CallTeamsRule (rd_account_id d) (rd_Id d))],
       snd (answer C _ (CallTeamsRule (rd_account_id d) (rd_Id d)) s)) /\
    rd_account_id d' = rd_account_id d /\
    rd_Id d' = match snd (fst (answer C _ (CallTeamsRule (rd_account_id d) (rd_Id d)) s)) with
               | Some err =>
                   if Contains (Error err) "invalid rule id" then EmptyString else rd_Id d
               | None => rd_Id d
               end.
Proof.
  unfold resourceCloudflareTeamsRuleRead. simpl.
  destruct (answer C _ (CallTeamsRule (rd_account_id d) (rd_Id d)) s) as [[rule err] s'].
  simpl. destruct err as [err|].
  - destruct (Contains (Error err) "invalid rule id"); simpl; eauto.
  - destruct (storeRule_returns rule _ _ d (conj eq_refl eq_refl))
      as ([diags d'] & -> & Hid & Hacct).
    simpl in *. eauto.
Qed.

Lemma calls_Call {A R : Type} (C : Client) (c : ClientCall R) (k : R -> Prog A)
    (s : ClientState C) :
  calls C (Call c k) s
  = request c :: calls C (k (fst (answer C _ c s))) (snd (answer C _ c s)).
Proof.
  unfold calls. simpl. destruct (answer C R c s) as [r s']. simpl.
  destruct (run C (k r) s') as [[o log] s'']. reflexivity.
Qed.

Lemma calls_read (C : Client) (s : ClientState C) (d : ResourceData) :
  calls C (resourceCloudflareTeamsRuleRead d) s
  = [request (CallTeamsRule (rd_account_id d) (rd_Id d))].
Proof.
  unfold calls. destruct (run_read C s d) as (diags & d' & -> & _). reflexivity.
Qed.

(** C3. When the client's TeamsRule call fails with a message that
    contains the sentinel text, Read clears the ID and returns no
    diagnostics; on any other failure it returns one diagnostic whose error
    wraps the client's error behind the context, and leaves the resource
    data as it was. *)
Theorem read_client_error (C : Client) (s s' : ClientState C) (d : ResourceData)
    (rule : TeamsRule) (err : error) :
  answer C _ (CallTeamsRule (rd_account_id d) (rd_Id d)) s = ((rule, Some err), s') ->
  (Contains (Error err) "invalid rule id" = true ->
   run C (resourceCloudflareTeamsRuleRead d) s
   = (Returned ([], SetId EmptyString d),
      [request (CallTeamsRule (rd_account_id d) (rd_Id d))], s') /\
   rd_Id (SetId EmptyString d) = EmptyString) /\
  (Contains (Error err) "invalid rule id" = false ->
   exists wrapped : error,
     run C (resourceCloudflareTeamsRuleRead d) s
     = (Returned (FromErr wrapped, d),
        [request (CallTeamsRule (rd_account_id d) (rd_Id d))], s') /\
     FromErr wrapped <> [] /\
     Summary <$> FromErr wrapped = [Error wrapped] /\
     Unwrap wrapped = Some err /\
     Error wrapped
     = ("error finding Teams Rule " ++ Quote (rd_Id d)) ++ ": " ++ Error err).
Proof.
  intros Hanswer. unfold resourceCloudflareTeamsRuleRead. simpl run.
  rewrite Hanswer. split; intros Hsentinel; rewrite Hsentinel.
  - split; reflexivity.
  - eexists. split; [reflexivity|]. repeat split. discriminate.
Qed.

(** C6. When the client's TeamsCreateRule call fails, Create returns one
    diagnostic whose error wraps the client's error behind a context that
    names the account, leaves the resource data (and so the ID) as it was,
    and has made that one request and no other. *)
Theorem create_client_error (C : Client) (s s' : ClientState C) (d : ResourceData)
    (settings : option TeamsRuleSettings) (rule : TeamsRule) (err : error) :
  inflateTeamsRuleSettings (rd_rule_settings d) = Returned settings ->
  answer C _ (CallTeamsCreateRule (rd_account_id d) (ruleFromData EmptyString settings d)) s
  = ((rule, Some err), s') ->
  exists wrapped : error,
    run C (resourceCloudflareTeamsRuleCreate d) s
    = (Returned (FromErr wrapped, d),
       [request (CallTeamsCreateRule (rd_account_id d) (ruleFromData EmptyString settings d))],
       s') /\
    FromErr wrapped <> [] /\
    Summary <$> FromErr wrapped = [Error wrapped] /\
    Unwrap wrapped = Some err /\
    Error wrapped
    = ("error creating Teams rule for account " ++ Quote (rd_account_id d))
      ++ ": " ++ Error err.
Proof.
  intros Hsettings Hanswer. unfold resourceCloudflareTeamsRuleCreate.
  rewrite Hsettings. simpl. rewrite Hanswer.
  eexists. split; [reflexivity|]. repeat split. discriminate.
Qed.

(** C5, as amended. Read makes exactly one request. Create, update and
    delete make their one changing request and, when it succeeds (for
    update: with a non-empty ID in the answer), one more request, the
    TeamsRule lookup of the Read they end with; they make no request when
    inflating the rule settings panics. *)
Theorem crud_calls (C : Client) (s : ClientState C) (d : ResourceData) :
  calls C (resourceCloudflareTeamsRuleRead d) s
  = [request (CallTeamsRule (rd_account_id d) (rd_Id d))] /\
  calls C (resourceCloudflareTeamsRuleCreate d) s
  = match inflateTeamsRuleSettings (rd_rule_settings d) with
    | Panicked => []
    | Returned settings =>
        let c := CallTeamsCreateRule (rd_account_id d) (ruleFromData EmptyString settings d) in
        match fst (answer C _ c s) with
        | (_, Some _) => [request c]
        | (rule, None) => [request c; request (CallTeamsRule (rd_account_id d) (ID rule))]
        end
    end /\
  calls C (resourceCloudflareTeamsRuleUpdate d) s
  = match inflateTeamsRuleSettings (rd_rule_settings d) with
    | Panicked => []
    | Returned settings =>
        let c := CallTeamsUpdateRule (rd_account_id d) (rd_Id d)
                   (ruleFromData (rd_Id d) settings d) in
        match fst (answer C _ c s) with
        | (_, Some _) => [request c]
        | (updatedTeamsRule, None) =>
            if String.eqb (ID updatedTeamsRule) EmptyString then [request c]
            else [request c; request (CallTeamsRule (rd_account_id d) (rd_Id d))]
        end
    end /\
  calls C (resourceCloudflareTeamsRuleDelete d) s
  = (let c := CallTeamsDeleteRule (rd_account_id d) (rd_Id d) in
     match fst (answer C _ c s) with
     | Some _ => [request c]
     | None => [request c; request (CallTeamsRule (rd_account_id d) (rd_Id d))]
     end).
Proof.
  split; [apply calls_read|]. split; [|split].
  - unfold resourceCloudflareTeamsRuleCreate.
    destruct (inflateTeamsRuleSettings (rd_rule_settings d)) as [|settings]; [reflexivity|].
    simpl pbind. rewrite calls_Call. cbv zeta.
    destruct (answer C _ _ s) as [[rule [err|]] s']; simpl fst; simpl snd; cbv iota beta.
    + reflexivity.
    + rewrite calls_read. reflexivity.
  - unfold resourceCloudflareTeamsRuleUpdate.
    destruct (inflateTeamsRuleSettings (rd_rule_settings d)) as [|settings]; [reflexivity|].
    simpl pbind. rewrite calls_Call. cbv zeta.
    change (ID (ruleFromData (rd_Id d) settings d)) with (rd_Id d).
    destruct (answer C _ _ s) as [[rule [err|]] s']; simpl fst; simpl snd; cbv iota beta.
    + reflexivity.
    + destruct (String.eqb (ID rule) EmptyString); [reflexivity|].
      rewrite calls_read. reflexivity.
  - unfold resourceCloudflareTeamsRuleDelete. cbv zeta. rewrite calls_Call.
    destruct (answer C _ _ s) as [[err|] s']; simpl fst; simpl snd; cbv iota beta.
    + reflexivity.
    + rewrite calls_read. reflexivity.
Qed.

(** C7. The resource is wired to the schema and to the five operations
    of this file. *)
Theorem resourceCloudflareTeamsRule_wiring :
  Schema resourceCloudflareTeamsRule = resourceCloudflareTeamsRuleSchema /\
  ReadContext resourceCloudflareTeamsRule = resourceCloudflareTeamsRuleRead /\
  UpdateContext resourceCloudflareTeamsRule = resourceCloudflareTeamsRuleUpdate /\
  CreateContext resourceCloudflareTeamsRule = resourceCloudflareTeamsRuleCreate /\
  DeleteContext resourceCloudflareTeamsRule = resourceCloudflareTeamsRuleDelete /\
  StateContext <$> Importer resourceCloudflareTeamsRule
  = Some resourceCloudflareTeamsRuleImport.
Proof. repeat split. Qed.

Lemma run_pbind {A B : Type} (C : Client) (p : Prog A) (k : A -> Prog B)
    (s : ClientState C) :
  run C (pbind p k) s
  = match run C p s with
    | (Returned a, log, s1) =>
        let '(o, log', s2) := run C (k a) s1 in (o, (log ++ log')%list, s2)
    | (Panicked, log, s1) => (Panicked, log, s1)
    end.
Proof.
  revert s. induction p as [a| |R c h IH]; intros s; simpl.
  - destruct (run C (k a) s) as [[o log'] s2]. reflexivity.
  - reflexivity.
  - destruct (answer C R c s) as [r s1]. rewrite IH.
    destruct (run C (h r) s1) as [[[|a] log] s2]; [reflexivity|].
    destruct (run C (k a) s2) as [[o log'] s3]. reflexivity.
Qed.

Lemma SplitN_first (before after : string) :
  Contains before "/" = false ->
  SplitN (before ++ "/" ++ after) slash 2 = [before; after].
Proof.
  intros Hbefore. simpl SplitN.
  change (before ++ "/" ++ after) with (before ++ String slash after).
  rewrite (Cut_first before after slash Hbefore). reflexivity.
Qed.

Lemma SplitN_without (s : string) :
  Contains s "/" = false -> SplitN s slash 2 = [s].
Proof.
  intros Hs. simpl. rewrite (Cut_without s slash Hs). reflexivity.
Qed.

(** C8, as amended. An ID without a slash is refused: an error, no
    resource, no request, the resource data untouched. An ID with a slash
    is split at the first one: the account is the text before it (the
    schema accepting the write), Read is run once on the text after it, and
    no error is returned; the ID handed back is the text after the slash,
    unless Read cleared it because the lookup failed with the sentinel
    message. *)
Theorem import_splits (C : Client) (s : ClientState C) (d : ResourceData) :
  (Contains (rd_Id d) "/" = false ->
   exists err : error,
     run C (resourceCloudflareTeamsRuleImport d) s
     = (Returned {| imported := []; importError := Some err; importData := d |}, [], s)) /\
  (forall accountID teamsRuleID : string,
     rd_Id d = accountID ++ "/" ++ teamsRuleID ->
     Contains accountID "/" = false ->
     setError "account_id" = None ->
     exists d' : ResourceData,
       run C (resourceCloudflareTeamsRuleImport d) s
       = (Returned {| imported := [d']; importError := None; importData := d' |},
          [request (CallTeamsRule accountID teamsRuleID)],
          snd (answer C _ (CallTeamsRule accountID teamsRuleID) s)) /\
       rd_account_id d' = accountID /\
       rd_Id d' = match snd (fst (answer C _ (CallTeamsRule accountID teamsRuleID) s)) with
                  | Some err =>
                      if Contains (Error err) "invalid rule id" then EmptyString
                      else teamsRuleID
                  | None => teamsRuleID
                  end).
Proof.
  split.
  - intros Hnone. unfold resourceCloudflareTeamsRuleImport.
    rewrite (SplitN_without _ Hnone). simpl. eauto.
  - intros accountID teamsRuleID Hid Hfirst Hschema.
    unfold resourceCloudflareTeamsRuleImport.
    rewrite Hid, (SplitN_first _ _ Hfirst).
    cbv zeta. unfold dSet. rewrite Hschema.
    change (negb (Nat.eqb (List.length [accountID; teamsRuleID]) 2)) with false.
    cbv iota. simpl nth. simpl fst.
    rewrite run_pbind.
    destruct (run_read C s (SetId teamsRuleID (set_account_id accountID d)))
      as (diags & d' & Hrun & Hacct & Hid').
    rewrite Hrun. simpl. exists d'. split; [reflexivity|]. split; assumption.
Qed.

End OperationFacts.

(** ** The theorems on the sample inputs *)

Lemma read_client_error_witness :
  @run (Diagnostics * ResourceData) (failingClient "invalid rule id")
    (@resourceCloudflareTeamsRuleRead sampleExternals sampleData) tt
  = (Returned ([], SetId EmptyString sampleData),
     [request (CallTeamsRule "acct" EmptyString)], tt) /\
  exists wrapped : error,
    @run (Diagnostics * ResourceData) (failingClient "access denied")
      (@resourceCloudflareTeamsRuleRead sampleExternals sampleData) tt
    = (Returned (FromErr wrapped, sampleData),
       [request (CallTeamsRule "acct" EmptyString)], tt) /\
    Unwrap wrapped = Some (errorString "access denied").
Proof.
  split.
  - destruct (@read_client_error sampleExternals (failingClient "invalid rule id") tt tt
                sampleData sampleRule (errorString "invalid rule id") eq_refl) as [Hclear _].
    apply Hclear. reflexivity.
  - destruct (@read_client_error sampleExternals (failingClient "access denied") tt tt
                sampleData sampleRule (errorString "access denied") eq_refl) as [_ Hwrap].
    destruct (Hwrap eq_refl) as (wrapped & Hrun & _ & _ & Hunwrap & _).
    exists wrapped. split; assumption.
Defined.

Lemma create_client_error_witness :
  exists wrapped : error,
    @run (Diagnostics * ResourceData) (failingClient "quota exceeded")
      (@resourceCloudflareTeamsRuleCreate sampleExternals sampleData) tt
    = (Returned (FromErr wrapped, sampleData),
       [request (CallTeamsCreateRule "acct"
                   (@ruleFromData sampleExternals EmptyString None sampleData))], tt) /\
    Unwrap wrapped = Some (errorString "quota exceeded").
Proof.
  destruct (@create_client_error sampleExternals (failingClient "quota exceeded") tt tt
              sampleData None sampleRule (errorString "quota exceeded") eq_refl eq_refl)
    as (wrapped & Hrun & _ & _ & Hunwrap & _).
  exists wrapped. split; assumption.
Defined.

(** C5 as first stated fails: a create that succeeds makes two requests. *)
Lemma create_makes_two_requests :
  calls acceptingClient (@resourceCloudflareTeamsRuleCreate sampleExternals sampleData) tt
  = [request (CallTeamsCreateRule "acct"
                (@ruleFromData sampleExternals EmptyString None sampleData));
     request (CallTeamsRule "acct" "rule-1")] /\
  List.length
    (calls acceptingClient (@resourceCloudflareTeamsRuleCreate sampleExternals sampleData) tt)
  = 2.
Proof. split; reflexivity. Qed.

(** C8 as first stated fails: importing a rule the client reports as
    missing hands back an empty ID, not the text after the slash. *)
Lemma import_of_missing_rule_clears_id :
  @run ImportResult (failingClient "invalid rule id")
    (@resourceCloudflareTeamsRuleImport sampleExternals (SetId "acct/rule-9" sampleData)) tt
  = (Returned {| imported := [SetId EmptyString sampleData];
                 importError := None;
                 importData := SetId EmptyString sampleData |},
     [request (CallTeamsRule "acct" "rule-9")], tt) /\
  rd_Id (SetId EmptyString sampleData) <> "rule-9".
Proof. split; [reflexivity | discriminate]. Qed.

Lemma import_splits_witness :
  exists d' : ResourceData,
    @run ImportResult acceptingClient
      (@resourceCloudflareTeamsRuleImport sampleExternals (SetId "acct/rule/9" sampleData)) tt
    = (Returned {| imported := [d']; importError := None; importData := d' |},
       [request (CallTeamsRule "acct" "rule/9")], tt) /\
    rd_account_id d' = "acct" /\ rd_Id d' = "rule/9".
Proof.
  destruct (@import_splits sampleExternals acceptingClient tt (SetId "acct/rule/9" sampleData))
    as [_ Hsplit].
  exact (Hsplit "acct" "rule/9" eq_refl eq_refl eq_refl).
Defined.

(** C4 as first stated fails: inflating what flatten returns panics. *)
Lemma inflate_of_flatten_panics :
  @inflateTeamsRuleSettings sampleExternals
    (VList (@flattenTeamsRuleSettings sampleExternals sampleSettings)) = Panicked /\
  @inflateTeamsRuleSettings sampleExternals
    (VList (@flattenTeamsRuleSettings sampleExternals zeroRuleSettings)) = Panicked.
Proof. split; reflexivity. Qed.

Lemma settings_roundtrip_witness :
  @inflateTeamsRuleSettings sampleExternals
    (VList [VMap (<["override_ips" := VList [VString "1.2.3.4"]]> sampleFlattened)])
  = Returned (Some sampleSettings).
Proof.
  destruct (@settings_roundtrip sampleExternals) as (_ & _ & _ & _ & Hwhole & _).
  apply (Hwhole sampleSettings {[ "X-Env" := ["prod"; "eu"] ]} sampleFlattened).
  - reflexivity.
  - intros key vs Hkey. apply lookup_singleton_Some in Hkey as [_ <-]. reflexivity.
  - discriminate.
  - intros c Hc. injection Hc as <-. reflexivity.
  - reflexivity.
Defined.

Lemma inflate_absent_witness :
  (@inflateTeamsRuleSettings sampleExternals (VList [VNil; VNil]) = Returned None /\
   @inflateTeamsRuleBisoAdminControls (VList [VNil; VNil]) = Returned None /\
   @inflateTeamsCheckSessionSettings sampleExternals (VList [VNil; VNil]) = Returned None /\
   @inflateTeamsL4Override (VList [VNil; VNil]) = Returned None) /\
  @inflateTeamsCheckSessionSettings sampleExternals
    (VList [VMap (<["enforce" := VBool true]> (<["duration" := VString "soon"]> ∅))])
  = Returned None.
Proof.
  destruct (@inflate_absent sampleExternals) as [Hlength Hduration]. split.
  - apply Hlength. simpl. lia.
  - apply (Hduration _ true "soon"); reflexivity.
Defined.

Lemma add_headers_roundtrip_witness :
  exists h : gmap string (list string),
    inflateTeamsAddHeaders (VMap {[ "X-Env" := VString "prod,eu" ]}) = Returned h /\
    flattenTeamsAddHeaders (Some h) = VMap {[ "X-Env" := VString "prod,eu" ]} /\
    h !! "X-Env" = Some ["prod"; "eu"].
Proof.
  destruct (add_headers_roundtrip {[ "X-Env" := VString "prod,eu" ]})
    as (h & Hinflate & Hflatten & Hvalues).
  - intros key v Hkey. apply lookup_singleton_Some in Hkey as [_ <-]. eauto.
  - exists h. split; [assumption|]. split; [assumption|].
    apply (Hvalues "X-Env" "prod,eu"). reflexivity.
Defined.

(** * Further properties of the code *)

(** ** Precedence, beyond the non-negative case *)
Section PrecedenceMore.
Context {ext : Externals}.
Local Open Scope Z_scope.

Lemma to_int64_of_uint64 z : to_int64 (to_uint64 z) = to_int64 z.
Proof. unfold to_int64, to_uint64. rewrite Zplus_mod_idemp_l. reflexivity. Qed.

Lemma int64_times_factor p : is_int64 (p * 1000) -> is_int64 p.
Proof. unfold is_int64, minInt64, maxInt64. lia. Qed.

(** Decoding what was encoded, through the unsigned conversion, for any
    signs. *)
Lemma decode_encode (p : Z) (name : string) :
  is_int64 (hashCodeString name) ->
  is_int64 (p * 1000) ->
  is_int64 (p * 1000 + Z.rem (hashCodeString name) 1000) ->
  apiToProviderRulePrecedence (to_uint64 (providerToApiRulePrecedence p name)) name = p.
Proof.
  intros Hh Hmul Hfit.
  rewrite (providerToApi_exact p name Hh Hfit).
  unfold apiToProviderRulePrecedence, int64_quo, int64_sub, int64_rem, rulePrecedenceFactor.
  rewrite to_int64_of_uint64, (to_int64_id _ Hfit), (to_int64_id _ Hh).
  replace (p * 1000 + Z.rem (hashCodeString name) 1000 - Z.rem (hashCodeString name) 1000)
    with (p * 1000) by lia.
  rewrite (to_int64_id _ Hmul), Z.quot_mul by lia.
  apply to_int64_id, int64_times_factor, Hmul.
Qed.

(** X1. The precedence round trip needs no sign condition: for a
    precedence and a hash of any sign it holds as soon as the product and
    the encoded value fit in an [int64], the negative encoded values
    passing through [uint64] and back. *)
Theorem precedence_roundtrip_any_sign (p : Z) (name : string) :
  is_int64 (hashCodeString name) ->
  is_int64 (p * 1000) ->
  is_int64 (p * 1000 + Z.rem (hashCodeString name) 1000) ->
  apiToProviderRulePrecedence (to_uint64 (providerToApiRulePrecedence p name)) name = p /\
  (providerToApiRulePrecedence p name < 0 ->
   to_uint64 (providerToApiRulePrecedence p name)
   = providerToApiRulePrecedence p name + 2 ^ 64).
Proof.
  intros Hh Hmul Hfit. split; [apply decode_encode; assumption|].
  rewrite (providerToApi_exact p name Hh Hfit). intros Hneg.
  unfold to_uint64. unfold is_int64, minInt64, maxInt64 in Hfit.
  symmetry. apply Z.mod_unique_pos with (q := -1); lia.
Qed.


(** X3. Decoding an arbitrary API precedence [a] (non-negative, below
    2^63) under a non-negative hash gives [a / 1000] when the last three
    digits of [a] are at least those of the hash, and never less than
    [a / 1000 - 1]: a value that was encoded for another name can decode
    to one less. *)
Theorem decode_bounds (a : Z) (name : string) :
  0 <= a <= maxInt64 ->
  0 <= hashCodeString name <= maxInt64 ->
  a / 1000 - 1 <= apiToProviderRulePrecedence a name <= a / 1000 /\
  (hashCodeString name mod 1000 <= a mod 1000 ->
   apiToProviderRulePrecedence a name = a / 1000) /\
  (a mod 1000 < hashCodeString name mod 1000 -> 1000 <= a ->
   apiToProviderRulePrecedence a name = a / 1000 - 1).
Proof.
  intros Ha Hh.
  pose proof (rem_factor_bound _ (proj1 Hh)) as Hr.
  assert (Hrm : Z.rem (hashCodeString name) 1000 = hashCodeString name mod 1000)
    by (apply Z.rem_mod_nonneg; lia).
  unfold apiToProviderRulePrecedence, int64_quo, int64_sub, int64_rem, rulePrecedenceFactor.
  rewrite !(to_int64_id a), !(to_int64_id (hashCodeString name))
    by (unfold is_int64, minInt64, maxInt64 in *; lia).
  rewrite Hrm in *. set (r := hashCodeString name mod 1000) in *.
  rewrite (to_int64_id (a - r)) by (unfold is_int64, minInt64, maxInt64 in *; lia).
  pose proof (Z.div_mod a 1000 ltac:(lia)) as Hdiv.
  pose proof (Z.mod_pos_bound a 1000 ltac:(lia)) as Hmod.
  assert (Hquot : Z.quot (a - r) 1000
                  = if Z_le_gt_dec r (a mod 1000) then a / 1000
                    else if Z_le_gt_dec 1000 a then a / 1000 - 1 else 0).
  { destruct (Z_le_gt_dec r (a mod 1000)).
    - rewrite Z.quot_div_nonneg by lia.
      symmetry. apply Z.div_unique with (r := a mod 1000 - r); lia.
    - destruct (Z_le_gt_dec 1000 a).
      + rewrite Z.quot_div_nonneg by lia.
        symmetry. apply Z.div_unique with (r := 1000 + a mod 1000 - r); lia.
      + replace (a - r) with (- (r - a)) by lia.
        rewrite Z.quot_opp_l, Z.quot_small by lia. reflexivity. }
  rewrite Hquot.
  assert (Hq : 0 <= a / 1000 <= maxInt64).
  { split; [apply Z.div_pos; lia|]. unfold maxInt64 in *.
    apply Z.div_le_upper_bound; lia. }
  destruct (Z_le_gt_dec r (a mod 1000)); [|destruct (Z_le_gt_dec 1000 a)].
  - rewrite to_int64_id by (unfold is_int64, minInt64, maxInt64 in *; lia).
    split; [lia|]. split; [reflexivity | lia].
  - assert (1 <= a / 1000) by (apply Z.div_le_lower_bound; lia).
    rewrite to_int64_id by (unfold is_int64, minInt64, maxInt64 in *; lia).
    split; [lia|]. split; [lia | reflexivity].
  - assert (a / 1000 = 0) by (apply Z.div_small; lia).
    rewrite to_int64_id by (unfold is_int64, minInt64, maxInt64; lia).
    split; [lia|]. split; lia.
Qed.

End PrecedenceMore.

(** ** Headers, from the API to the state and back *)
Section HeaderMore.

Lemma Split_without (v : string) :
  Contains v "," = false -> Split v comma = [v].
Proof.
  induction v as [|c v IH]; [reflexivity|].
  change "," with (String comma EmptyString). rewrite Contains_byte_cons.
  intros H. apply orb_false_iff in H as [Hc Hv].
  simpl. rewrite Hc, (IH Hv). reflexivity.
Qed.

Lemma Split_at_comma (v rest : string) :
  Contains v "," = false ->
  Split (v ++ "," ++ rest) comma = v :: Split rest comma.
Proof.
  induction v as [|c v IH].
  - intros _. reflexivity.
  - change "," with (String comma EmptyString). rewrite Contains_byte_cons.
    intros H. apply orb_false_iff in H as [Hc Hv].
    change (String c v ++ String comma EmptyString ++ rest)
      with (String c (v ++ "," ++ rest)).
    simpl Split. rewrite Hc, (IH Hv). reflexivity.
Qed.

(** Values without commas survive joining and splitting, unless there is
    none of them. *)
Lemma rejoined_without_commas (vs : list string) :
  vs <> [] ->
  Forall (fun v => Contains v "," = false) vs ->
  rejoined vs = vs.
Proof.
  unfold rejoined. intros Hne Hvs.
  induction Hvs as [|v vs Hv Hvs IH]; [contradiction|].
  destruct vs as [|w ws].
  - simpl. apply Split_without, Hv.
  - change (Join (v :: w :: ws) ",") with (v ++ "," ++ Join (w :: ws) ",").
    rewrite (Split_at_comma _ _ Hv), IH by discriminate. reflexivity.
Qed.

(** A value with a comma in it comes back as more than one value. *)
Lemma Split_with_comma (v : string) :
  Contains v "," = true -> 2 <= List.length (Split v comma).
Proof.
  induction v as [|c v IH]; [discriminate|].
  change "," with (String comma EmptyString). rewrite Contains_byte_cons.
  simpl Split. pose proof (Split_nonempty v comma) as Hne.
  destruct (Ascii.eqb c comma); simpl orb.
  - intros _. destruct (Split v comma); [contradiction | simpl; lia].
  - intros Hv. specialize (IH Hv). destruct (Split v comma); simpl in *; lia.
Qed.

(** X4. [inflateTeamsAddHeaders] never panics on a map, whatever the
    order in which the loop visits the keys: an entry that is a string
    becomes that string split at the commas, any other entry is dropped,
    and no other key appears. On a value that is not a map it panics. *)
Theorem inflateTeamsAddHeaders_lookup (v : value) :
  match v with
  | VMap m =>
      exists h : gmap string (list string),
        inflateTeamsAddHeaders v = Returned h /\
        (forall key : string,
           h !! key = match m !! key with
                      | Some (VString s) => Some (Split s comma)
                      | _ => None
                      end)
  | _ => inflateTeamsAddHeaders v = Panicked
  end.
Proof.
  destruct v as [| | | | | |m]; try reflexivity.
  exists (omap headerValues m). split; [apply inflateTeamsAddHeaders_omap|].
  intros key. rewrite lookup_omap.
  destruct (m !! key) as [[]|]; reflexivity.
Qed.

(** X5. From a header to the state and back: [flattenTeamsAddHeaders]
    followed by [inflateTeamsAddHeaders] keeps the keys and replaces each
    list of values by its comma-joined text split again. That restores a
    non-empty list of values without commas, turns an empty list into
    one empty string, and turns a single value with a comma in it into two
    values or more. *)
Theorem header_there_and_back (h : gmap string (list string)) :
  exists h' : gmap string (list string),
    inflateTeamsAddHeaders (flattenTeamsAddHeaders (Some h)) = Returned h' /\
    (forall key : string, h' !! key = rejoined <$> h !! key) /\
    rejoined [] = [EmptyString] /\
    (forall vs : list string,
       vs <> [] -> Forall (fun v => Contains v "," = false) vs -> rejoined vs = vs) /\
    (forall v : string, Contains v "," = true -> 2 <= List.length (rejoined [v])).
Proof.
  exists (rejoined <$> h). split; [|split; [|split; [|split]]]; [| | | |apply Split_with_comma].
  - rewrite flattenTeamsAddHeaders_fmap, inflateTeamsAddHeaders_omap. f_equal.
    apply map_eq. intros key. rewrite lookup_omap, !lookup_fmap.
    destruct (h !! key); reflexivity.
  - intros key. apply lookup_fmap.
  - reflexivity.
  - apply rejoined_without_commas.
Qed.

End HeaderMore.

(** ** What the inflate helpers accept and return *)
Section InflateMore.
Context {ext : Externals}.

Lemma obind_Returned {A B : Type} (o : outcome A) (k : A -> outcome B) (b : B) :
  obind o k = Returned b -> exists a, o = Returned a /\ k a = Returned b.
Proof. destruct o as [|a]; [discriminate|]. simpl. eauto. Qed.

Lemma asBool_Returned (v : value) (b : bool) : asBool v = Returned b -> v = VBool b.
Proof. destruct v; simpl; congruence. Qed.

Lemma asInt_Returned (v : value) (n : Z) : asInt v = Returned n -> v = VInt n.
Proof. destruct v; simpl; congruence. Qed.

Lemma asString_Returned (v : value) (s : string) : asString v = Returned s -> v = VString s.
Proof. destruct v; simpl; congruence. Qed.

Lemma asMap_Returned (v : value) (m : gmap string value) : asMap v = Returned m -> v = VMap m.
Proof. destruct v; simpl; congruence. Qed.

Lemma index_is (m : gmap string value) (key : string) (v : value) :
  index m key = v -> v <> VNil -> m !! key = Some v.
Proof. unfold index. destruct (m !! key); simpl; congruence. Qed.

Lemma appendStrings_not_empty (l : list value) (acc r : option (list string)) :
  appendStrings acc l = Returned r -> acc <> Some [] -> r <> Some [].
Proof.
  revert acc. induction l as [|v l IH]; intros acc; simpl.
  - congruence.
  - intros H Hacc. apply obind_Returned in H as (s & _ & H).
    apply (IH _ H). unfold append. destruct (default [] acc); discriminate.
Qed.

(** X6. Whatever [inflateTeamsRuleSettings] returns that is not nil has
    a non-nil AddHeaders, and OverrideIPs either nil or with at least one
    address: it never hands the client a nil header map or an empty
    non-nil slice. *)
Theorem inflateTeamsRuleSettings_result (v : value) (s : TeamsRuleSettings) :
  inflateTeamsRuleSettings v = Returned (Some s) ->
  (exists h, AddHeaders s = Some h) /\
  (OverrideIPs s = None \/ exists ip ips, OverrideIPs s = Some (ip :: ips)).
Proof.
  unfold inflateTeamsRuleSettings. intros H.
  apply obind_Returned in H as (settingsList & _ & H).
  destruct (negb (Nat.eqb (List.length settingsList) 1)); [discriminate|].
  repeat (apply obind_Returned in H as (? & ? & H)).
  injection H as <-. simpl. split; [eauto|].
  match goal with
  | Hips : appendStrings None _ = Returned ?r |- _ =>
      pose proof (appendStrings_not_empty _ _ _ Hips ltac:(discriminate)) as Hne;
      destruct r as [[|ip ips]|]; [contradiction | eauto | eauto]
  end.
Qed.

(** X7. On a one-element list [inflateTeamsL4Override] never returns
    nil: it returns only when the element is a map with a string under ip
    and an int under port (otherwise it panics), and then the result holds
    these two; flattening the result gives back the map when the map has
    no other key. *)
Theorem inflateTeamsL4Override_one (v : value) (r : option TeamsL4OverrideSettings) :
  inflateTeamsL4Override (VList [v]) = Returned r ->
  exists (m : gmap string value) (ip : string) (port : Z),
    v = VMap m /\
    m !! "ip" = Some (VString ip) /\
    m !! "port" = Some (VInt port) /\
    r = Some {| IP := ip; Port := port |} /\
    (dom m = {[ "ip"; "port" ]} -> flattenTeamsL4Override r = [VMap m]).
Proof.
  unfold inflateTeamsL4Override. simpl. intros H.
  apply obind_Returned in H as (m & Hm & H). apply asMap_Returned in Hm.
  apply obind_Returned in H as (ip & Hip & H). apply asString_Returned in Hip.
  apply obind_Returned in H as (port & Hport & H). apply asInt_Returned in Hport.
  injection H as <-.
  apply index_is in Hip; [|discriminate]. apply index_is in Hport; [|discriminate].
  exists m, ip, port. repeat split; try assumption.
  intros Hdom. simpl. do 2 f_equal. apply map_eq. intros key.
  destruct (decide (key = "ip")) as [->|Hnip]; [rewrite lookup_insert_eq; congruence|].
  rewrite lookup_insert_ne by congruence.
  destruct (decide (key = "port")) as [->|Hnport]; [rewrite lookup_insert_eq; congruence|].
  rewrite lookup_insert_ne by congruence. rewrite lookup_empty.
  symmetry. apply not_elem_of_dom. rewrite Hdom.
  intros [Hin|Hin]%elem_of_union; apply elem_of_singleton in Hin; congruence.
Qed.

(** X8. On a one-element list [inflateTeamsRuleBisoAdminControls] never
    returns nil: it returns only when the element is a map with a bool
    under each of its five keys (otherwise it panics), and then the result
    holds these five. *)
Theorem inflateTeamsRuleBisoAdminControls_one (v : value)
    (r : option TeamsBISOAdminControlSettings) :
  inflateTeamsRuleBisoAdminControls (VList [v]) = Returned r ->
  exists (m : gmap string value) (x : TeamsBISOAdminControlSettings),
    v = VMap m /\
    r = Some x /\
    m !! "disable_printing" = Some (VBool (DisablePrinting x)) /\
    m !! "disable_copy_paste" = Some (VBool (DisableCopyPaste x)) /\
    m !! "disable_download" = Some (VBool (DisableDownload x)) /\
    m !! "disable_upload" = Some (VBool (DisableUpload x)) /\
    m !! "disable_keyboard" = Some (VBool (DisableKeyboard x)).
Proof.
  unfold inflateTeamsRuleBisoAdminControls. simpl. intros H.
  apply obind_Returned in H as (m & Hm & H). apply asMap_Returned in Hm.
  apply obind_Returned in H as (b1 & H1 & H). apply asBool_Returned in H1.
  apply obind_Returned in H as (b2 & H2 & H). apply asBool_Returned in H2.
  apply obind_Returned in H as (b3 & H3 & H). apply asBool_Returned in H3.
  apply obind_Returned in H as (b4 & H4 & H). apply asBool_Returned in H4.
  apply obind_Returned in H as (b5 & H5 & H). apply asBool_Returned in H5.
  injection H as <-.
  exists m, (mkBISO b1 b2 b3 b4 b5). simpl.
  repeat split; try assumption; apply index_is; (assumption || discriminate).
Qed.

(** X9. On a one-element list [inflateTeamsCheckSessionSettings]
    returns only when the element is a map with a bool under enforce and a
    string under duration (otherwise it panics); the result is nil exactly
    when the duration text does not parse, and otherwise holds the flag and
    the parsed duration. *)
Theorem inflateTeamsCheckSessionSettings_one (v : value)
    (r : option TeamsCheckSessionSettings) :
  inflateTeamsCheckSessionSettings (VList [v]) = Returned r ->
  exists (m : gmap string value) (enforce : bool) (durationString : string),
    v = VMap m /\
    m !! "enforce" = Some (VBool enforce) /\
    m !! "duration" = Some (VString durationString) /\
    r = (fun dur => {| Enforce := enforce; Duration := dur |})
          <$> ParseDuration durationString.
Proof.
  unfold inflateTeamsCheckSessionSettings. simpl. intros H.
  apply obind_Returned in H as (m & Hm & H). apply asMap_Returned in Hm.
  apply obind_Returned in H as (enforce & He & H). apply asBool_Returned in He.
  apply obind_Returned in H as (ds & Hds & H). apply asString_Returned in Hds.
  apply index_is in He; [|discriminate]. apply index_is in Hds; [|discriminate].
  exists m, enforce, ds. repeat split; try assumption.
  destruct (ParseDuration ds); simpl; congruence.
Qed.

Lemma fold_append (fs : list string) (acc : option (list string)) :
  fold_left (fun filters f => append filters f) fs acc
  = match fs with
    | [] => acc
    | _ :: _ => Some (default [] acc ++ fs)%list
    end.
Proof.
  revert acc. induction fs as [|f fs IH]; intros acc; [reflexivity|].
  simpl. rewrite IH. unfold append. simpl.
  destruct fs; [reflexivity|]. rewrite <- app_assoc. reflexivity.
Qed.

(** X10. The rule that create and update send carries the configured
    filters in their order, and a nil slice when none is configured. *)
Theorem ruleFromData_filters (id : string) (settings : option TeamsRuleSettings)
    (d : ResourceData) :
  Filters (ruleFromData id settings d)
  = match rd_filters d with
    | [] => None
    | f :: fs => Some (f :: fs)
    end.
Proof.
  unfold ruleFromData, collectFilters. simpl. rewrite fold_append.
  destruct (rd_filters d); reflexivity.
Qed.

End InflateMore.

(** ** The operations, on their other paths *)
Section OperationMore.
Context {ext : Externals}.

Lemma run_Call {A R : Type} (C : Client) (c : ClientCall R) (k : R -> Prog A)
    (s s1 : ClientState C) (r : R) :
  answer C _ c s = (r, s1) ->
  run C (Call c k) s
  = (let '(o, log, s2) := run C (k r) s1 in (o, request c :: log, s2)).
Proof. intros Hanswer. simpl. rewrite Hanswer. reflexivity. Qed.

Lemma storeRule_accepted (rule : TeamsRule) (d : ResourceData) :
  Forall (fun key => setError key = None) storedKeys ->
  storeRule rule d = Ret ([], storedData rule d).
Proof.
  unfold storedKeys. intros Hkeys.
  repeat (apply Forall_cons in Hkeys as [? Hkeys]).
  unfold storeRule, setOrReturn, dSet.
  repeat match goal with Hk : setError _ = None |- _ => rewrite Hk; clear Hk end.
  reflexivity.
Qed.

Lemma storeRule_diagnostics (rule : TeamsRule) (d : ResourceData) :
  exists diags d',
    storeRule rule d = Ret (diags, d') /\
    List.length diags <= 1 /\
    (diags = [] <-> Forall (fun key => setError key = None) storedKeys) /\
    (setError "name" <> None -> d' = d).
Proof.
  destruct (decide (Forall (fun key => setError key = None) storedKeys)) as [Hall|Hnot].
  - exists [], (storedData rule d). rewrite (storeRule_accepted _ _ Hall).
    split; [reflexivity|]. split; [simpl; lia|]. split; [tauto|].
    unfold storedKeys in Hall. apply Forall_cons in Hall as [Hname _]. congruence.
  - unfold storeRule, setOrReturn, dSet, storedKeys in *.
    repeat match goal with
    | |- context [setError ?key] =>
        destruct (setError key) eqn:?;
        [ eexists _, _; split; [reflexivity|]; split; [simpl; lia|];
          split; [split; [discriminate | intros; contradiction] | try reflexivity; congruence]
        | ]
    end.
    exfalso. apply Hnot. repeat constructor; assumption.
Qed.

(** X11. A Read whose lookup succeeds against a schema that accepts the
    eleven attributes returns no diagnostics and stores the rule: every
    attribute is the rule's, the precedence decoded under the rule's name,
    a nil filter slice stored as the empty list; the ID and the account
    stay. *)
Theorem read_success (C : Client) (s s1 : ClientState C) (d : ResourceData)
    (rule : TeamsRule) :
  answer C _ (CallTeamsRule (rd_account_id d) (rd_Id d)) s = ((rule, None), s1) ->
  Forall (fun key => setError key = None) storedKeys ->
  run C (resourceCloudflareTeamsRuleRead d) s
  = (Returned ([], storedData rule d),
     [request (CallTeamsRule (rd_account_id d) (rd_Id d))], s1) /\
  rd_Id (storedData rule d) = rd_Id d /\
  rd_account_id (storedData rule d) = rd_account_id d /\
  rd_precedence (storedData rule d)
  = apiToProviderRulePrecedence (Precedence rule) (Name rule).
Proof.
  intros Hanswer Hkeys. split; [|repeat split].
  unfold resourceCloudflareTeamsRuleRead. cbv zeta.
  rewrite (run_Call _ _ _ _ _ _ Hanswer). cbv beta iota.
  rewrite (storeRule_accepted _ _ Hkeys). reflexivity.
Qed.

(** X12. A Read whose lookup succeeds returns at most one diagnostic,
    and none exactly when the schema accepts all eleven attributes; when
    the first write (name) is refused, the resource data is left as it
    was. *)
Theorem read_diagnostics (C : Client) (s s1 : ClientState C) (d : ResourceData)
    (rule : TeamsRule) :
  answer C _ (CallTeamsRule (rd_account_id d) (rd_Id d)) s = ((rule, None), s1) ->
  exists diags d',
    run C (resourceCloudflareTeamsRuleRead d) s
    = (Returned (diags, d'), [request (CallTeamsRule (rd_account_id d) (rd_Id d))], s1) /\
    List.length diags <= 1 /\
    (diags = [] <-> Forall (fun key => setError key = None) storedKeys) /\
    (setError "name" <> None -> d' = d).
Proof.
  intros Hanswer.
  destruct (storeRule_diagnostics rule d) as (diags & d' & Hstore & Hrest).
  exists diags, d'. split; [|exact Hrest].
  unfold resourceCloudflareTeamsRuleRead. cbv zeta.
  rewrite (run_Call _ _ _ _ _ _ Hanswer). cbv beta iota.
  rewrite Hstore. reflexivity.
Qed.

(** X13. Read never panics, whatever the client answers; it makes its
    one request, never changes the account, and leaves the ID as it was
    except for clearing it when the lookup fails with the sentinel
    message. *)
Theorem read_frame (C : Client) (s : ClientState C) (d : ResourceData) :
  exists diags d',
    run C (resourceCloudflareTeamsRuleRead d) s
    = (Returned (diags, d'),
       [request (CallTeamsRule (rd_account_id d) (rd_Id d))],
       snd (answer C _ (CallTeamsRule (rd_account_id d) (rd_Id d)) s)) /\
    rd_account_id d' = rd_account_id d /\
    rd_Id d' = match snd (fst (answer C _ (CallTeamsRule (rd_account_id d) (rd_Id d)) s)) with
               | Some err =>
                   if Contains (Error err) "invalid rule id" then EmptyString else rd_Id d
               | None => rd_Id d
               end.
Proof. apply run_read. Qed.

(** X14. When the client's TeamsUpdateRule call fails, Update returns
    one diagnostic whose error wraps the client's error behind a context
    that names the account, leaves the resource data as it was, and has
    made that one request. *)
Theorem update_client_error (C : Client) (s s1 : ClientState C) (d : ResourceData)
    (settings : option TeamsRuleSettings) (rule : TeamsRule) (err : error) :
  inflateTeamsRuleSettings (rd_rule_settings d) = Returned settings ->
  answer C _ (CallTeamsUpdateRule (rd_account_id d) (rd_Id d)
                (ruleFromData (rd_Id d) settings d)) s
  = ((rule, Some err), s1) ->
  exists wrapped : error,
    run C (resourceCloudflareTeamsRuleUpdate d) s
    = (Returned (FromErr wrapped, d),
       [request (CallTeamsUpdateRule (rd_account_id d) (rd_Id d)
                   (ruleFromData (rd_Id d) settings d))], s1) /\
    Unwrap wrapped = Some err /\
    Error wrapped
    = ("error updating Teams rule for account " ++ Quote (rd_account_id d))
      ++ ": " ++ Error err.
Proof.
  intros Hsettings Hanswer. unfold resourceCloudflareTeamsRuleUpdate.
  rewrite Hsettings. simpl pbind. cbv zeta.
  change (ID (ruleFromData (rd_Id d) settings d)) with (rd_Id d).
  rewrite (run_Call _ _ _ _ _ _ Hanswer).
  eexists. split; [reflexivity|]. split; reflexivity.
Qed.

(** X15. When TeamsUpdateRule succeeds but answers with a rule whose ID
    is empty, Update stops there: one diagnostic with the fixed message,
    the resource data as it was, and no lookup. *)
Theorem update_empty_id (C : Client) (s s1 : ClientState C) (d : ResourceData)
    (settings : option TeamsRuleSettings) (rule : TeamsRule) :
  inflateTeamsRuleSettings (rd_rule_settings d) = Returned settings ->
  answer C _ (CallTeamsUpdateRule (rd_account_id d) (rd_Id d)
                (ruleFromData (rd_Id d) settings d)) s
  = ((rule, None), s1) ->
  ID rule = EmptyString ->
  run C (resourceCloudflareTeamsRuleUpdate d) s
  = (Returned
       (FromErr (errorString
          "failed to find Teams Rule ID in update response; resource was empty"), d),
     [request (CallTeamsUpdateRule (rd_account_id d) (rd_Id d)
                 (ruleFromData (rd_Id d) settings d))], s1).
Proof.
  intros Hsettings Hanswer Hid. unfold resourceCloudflareTeamsRuleUpdate.
  rewrite Hsettings. simpl pbind. cbv zeta.
  change (ID (ruleFromData (rd_Id d) settings d)) with (rd_Id d).
  rewrite (run_Call _ _ _ _ _ _ Hanswer). cbv beta iota. rewrite Hid. reflexivity.
Qed.

(** X16. When the client's TeamsDeleteRule call fails, Delete returns
    one diagnostic whose error wraps the client's error behind a context
    that names the account, leaves the resource data (and so the ID) as it
    was, and has made that one request. *)
Theorem delete_client_error (C : Client) (s s1 : ClientState C) (d : ResourceData)
    (err : error) :
  answer C _ (CallTeamsDeleteRule (rd_account_id d) (rd_Id d)) s = (Some err, s1) ->
  exists wrapped : error,
    run C (resourceCloudflareTeamsRuleDelete d) s
    = (Returned (FromErr wrapped, d),
       [request (CallTeamsDeleteRule (rd_account_id d) (rd_Id d))], s1) /\
    Unwrap wrapped = Some err /\
    Error wrapped
    = ("error deleting Teams Rule for account " ++ Quote (rd_account_id d))
      ++ ": " ++ Error err.
Proof.
  intros Hanswer. unfold resourceCloudflareTeamsRuleDelete. cbv zeta.
  rewrite (run_Call _ _ _ _ _ _ Hanswer).
  eexists. split; [reflexivity|]. split; reflexivity.
Qed.

End OperationMore.

(** ** How the operations compose with Read *)
Section OperationCompose.
Context {ext : Externals}.

(** X17. A create that the client accepts sets the ID to the one the
    client returned and then reads the rule back under that ID: two
    requests, the account unchanged, and the new ID kept unless the lookup
    reports the rule missing. *)
Theorem create_success (C : Client) (s s1 : ClientState C) (d : ResourceData)
    (settings : option TeamsRuleSettings) (created : TeamsRule) :
  inflateTeamsRuleSettings (rd_rule_settings d) = Returned settings ->
  answer C _ (CallTeamsCreateRule (rd_account_id d) (ruleFromData EmptyString settings d)) s
  = ((created, None), s1) ->
  exists diags d',
    run C (resourceCloudflareTeamsRuleCreate d) s
    = (Returned (diags, d'),
       [request (CallTeamsCreateRule (rd_account_id d) (ruleFromData EmptyString settings d));
        request (CallTeamsRule (rd_account_id d) (ID created))],
       snd (answer C _ (CallTeamsRule (rd_account_id d) (ID created)) s1)) /\
    rd_account_id d' = rd_account_id d /\
    rd_Id d' = match snd (fst (answer C _ (CallTeamsRule (rd_account_id d) (ID created)) s1)) with
               | Some err =>
                   if Contains (Error err) "invalid rule id" then EmptyString
                   else ID created
               | None => ID created
               end.
Proof.
  intros Hsettings Hanswer. unfold resourceCloudflareTeamsRuleCreate.
  rewrite Hsettings. simpl pbind. cbv zeta.
  rewrite (run_Call _ _ _ _ _ _ Hanswer). cbv beta iota.
  destruct (run_read C s1 (SetId (ID created) d)) as (diags & d' & Hrun & Hacct & Hid).
  rewrite Hrun. exists diags, d'. split; [reflexivity|]. split; assumption.
Qed.

(** X18. The precedence survives a create: when the client accepts the
    create and its lookup then answers with the name and the precedence it
    was sent, the state ends with no diagnostics, the configured
    precedence and the returned ID (the schema accepting the writes, the
    encoded value fitting in an [int64]). *)
Theorem create_keeps_precedence (C : Client) (s s1 s2 : ClientState C) (d : ResourceData)
    (settings : option TeamsRuleSettings) (created found : TeamsRule) :
  inflateTeamsRuleSettings (rd_rule_settings d) = Returned settings ->
  answer C _ (CallTeamsCreateRule (rd_account_id d) (ruleFromData EmptyString settings d)) s
  = ((created, None), s1) ->
  answer C _ (CallTeamsRule (rd_account_id d) (ID created)) s1 = ((found, None), s2) ->
  Name found = rd_name d ->
  Precedence found = Precedence (ruleFromData EmptyString settings d) ->
  Forall (fun key => setError key = None) storedKeys ->
  is_int64 (hashCodeString (rd_name d)) ->
  is_int64 (rd_precedence d * 1000) ->
  is_int64 (rd_precedence d * 1000 + Z.rem (hashCodeString (rd_name d)) 1000) ->
  exists d',
    run C (resourceCloudflareTeamsRuleCreate d) s
    = (Returned ([], d'),
       [request (CallTeamsCreateRule (rd_account_id d) (ruleFromData EmptyString settings d));
        request (CallTeamsRule (rd_account_id d) (ID created))], s2) /\
    rd_precedence d' = rd_precedence d /\
    rd_name d' = rd_name d /\
    rd_Id d' = ID created.
Proof.
  intros Hsettings Hcreate Hlookup Hname Hprec Hkeys Hh Hmul Hfit.
  exists (storedData found (SetId (ID created) d)). split; [|split; [|split; [|reflexivity]]].
  - unfold resourceCloudflareTeamsRuleCreate.
    rewrite Hsettings. simpl pbind. cbv zeta.
    rewrite (run_Call _ _ _ _ _ _ Hcreate). cbv beta iota.
    unfold resourceCloudflareTeamsRuleRead. cbv zeta.
    change (rd_account_id (SetId (ID created) d)) with (rd_account_id d).
    change (rd_Id (SetId (ID created) d)) with (ID created).
    rewrite (run_Call _ _ _ _ _ _ Hlookup). cbv beta iota.
    rewrite (storeRule_accepted _ _ Hkeys). reflexivity.
  - simpl. rewrite Hprec, Hname. simpl.
    rewrite (to_int64_id (rd_precedence d)) by (apply int64_times_factor, Hmul).
    apply decode_encode; assumption.
  - exact Hname.
Qed.

(** X19. After a delete that the client accepts, Delete reads the rule
    once more. When that lookup fails with the sentinel message the ID is
    cleared and no diagnostics are returned; when it fails otherwise,
    Delete returns the lookup's error as a diagnostic and keeps the ID,
    although the rule has been deleted. *)
Theorem delete_then_lookup_fails (C : Client) (s s1 s2 : ClientState C) (d : ResourceData)
    (rule : TeamsRule) (err : error) :
  answer C _ (CallTeamsDeleteRule (rd_account_id d) (rd_Id d)) s = (None, s1) ->
  answer C _ (CallTeamsRule (rd_account_id d) (rd_Id d)) s1 = ((rule, Some err), s2) ->
  run C (resourceCloudflareTeamsRuleDelete d) s
  = (Returned
       (if Contains (Error err) "invalid rule id" then ([], SetId EmptyString d)
        else (FromErr (Errorf_w ("error finding Teams Rule " ++ Quote (rd_Id d)) err), d)),
     [request (CallTeamsDeleteRule (rd_account_id d) (rd_Id d));
      request (CallTeamsRule (rd_account_id d) (rd_Id d))], s2).
Proof.
  intros Hdelete Hlookup. unfold resourceCloudflareTeamsRuleDelete. cbv zeta.
  rewrite (run_Call _ _ _ _ _ _ Hdelete). cbv beta iota.
  unfold resourceCloudflareTeamsRuleRead. cbv zeta.
  rewrite (run_Call _ _ _ _ _ _ Hlookup). cbv beta iota.
  destruct (Contains (Error err) "invalid rule id"); reflexivity.
Qed.

(** X20. After a delete that the client accepts, if the lookup still
    finds the rule, Delete returns no diagnostics and leaves the ID in
    place, the state refreshed from the rule that was found (the schema
    accepting the writes). *)
Theorem delete_then_rule_found (C : Client) (s s1 s2 : ClientState C) (d : ResourceData)
    (rule : TeamsRule) :
  answer C _ (CallTeamsDeleteRule (rd_account_id d) (rd_Id d)) s = (None, s1) ->
  answer C _ (CallTeamsRule (rd_account_id d) (rd_Id d)) s1 = ((rule, None), s2) ->
  Forall (fun key => setError key = None) storedKeys ->
  run C (resourceCloudflareTeamsRuleDelete d) s
  = (Returned ([], storedData rule d),
     [request (CallTeamsDeleteRule (rd_account_id d) (rd_Id d));
      request (CallTeamsRule (rd_account_id d) (rd_Id d))], s2) /\
  rd_Id (storedData rule d) = rd_Id d.
Proof.
  intros Hdelete Hlookup Hkeys. split; [|reflexivity].
  unfold resourceCloudflareTeamsRuleDelete. cbv zeta.
  rewrite (run_Call _ _ _ _ _ _ Hdelete). cbv beta iota.
  unfold resourceCloudflareTeamsRuleRead. cbv zeta.
  rewrite (run_Call _ _ _ _ _ _ Hlookup). cbv beta iota.
  rewrite (storeRule_accepted _ _ Hkeys). reflexivity.
Qed.

End OperationCompose.

(** ** The further properties on the sample inputs *)

Lemma precedence_roundtrip_any_sign_witness :
  @apiToProviderRulePrecedence sampleExternals
    (to_uint64 (@providerToApiRulePrecedence sampleExternals (-3) "block-ads")) "block-ads"
  = (-3)%Z /\
  to_uint64 (@providerToApiRulePrecedence sampleExternals (-3) "block-ads")
  = (@providerToApiRulePrecedence sampleExternals (-3) "block-ads" + 2 ^ 64)%Z.
Proof.
  destruct (@precedence_roundtrip_any_sign sampleExternals (-3) "block-ads")
    as [Hback Hsent].
  - vm_compute. split; discriminate.
  - vm_compute. split; discriminate.
  - vm_compute. split; discriminate.
  - split; [exact Hback | apply Hsent; reflexivity].
Defined.


Lemma decode_bounds_witness :
  @apiToProviderRulePrecedence sampleExternals 12005 "block-ads" = (12005 / 1000 - 1)%Z.
Proof.
  destruct (@decode_bounds sampleExternals 12005 "block-ads") as (_ & _ & Hless).
  - vm_compute. split; discriminate.
  - vm_compute. split; discriminate.
  - apply Hless; [reflexivity | lia].
Defined.

Lemma header_there_and_back_witness :
  rejoined ["prod"; "eu"] = ["prod"; "eu"] /\
  (2 <= List.length (rejoined ["prod,eu"])).
Proof.
  destruct (header_there_and_back ∅) as (h' & _ & _ & _ & Hkeep & Hsplit). split.
  - apply Hkeep; [discriminate | repeat constructor].
  - apply Hsplit. reflexivity.
Defined.

Lemma inflateTeamsRuleSettings_result_witness :
  (exists h, AddHeaders sampleSettings = Some h) /\
  (OverrideIPs sampleSettings = None \/
   exists ip ips, OverrideIPs sampleSettings = Some (ip :: ips)).
Proof.
  apply (@inflateTeamsRuleSettings_result sampleExternals
           (VList [VMap (<["override_ips" := VList [VString "1.2.3.4"]]> sampleFlattened)])).
  vm_compute. reflexivity.
Defined.

Lemma inflateTeamsL4Override_one_witness :
  exists (m : gmap string value) (ip : string) (port : Z),
    VMap (<["ip" := VString "10.0.0.1"]> (<["port" := VInt 8080]> ∅)) = VMap m /\
    m !! "ip" = Some (VString ip) /\
    m !! "port" = Some (VInt port) /\
    Some {| IP := "10.0.0.1"; Port := 8080 |} = Some {| IP := ip; Port := port |} /\
    (dom m = {[ "ip"; "port" ]} ->
     flattenTeamsL4Override (Some {| IP := "10.0.0.1"; Port := 8080 |}) = [VMap m]).
Proof.
  apply (inflateTeamsL4Override_one
           (VMap (<["ip" := VString "10.0.0.1"]> (<["port" := VInt 8080]> ∅)))).
  reflexivity.
Defined.

Lemma inflateTeamsRuleBisoAdminControls_one_witness :
  exists (m : gmap string value) (x : TeamsBISOAdminControlSettings),
    VMap (<["disable_printing" := VBool true]>
          (<["disable_copy_paste" := VBool false]>
          (<["disable_download" := VBool true]>
          (<["disable_upload" := VBool false]>
          (<["disable_keyboard" := VBool true]> ∅))))) = VMap m /\
    Some (mkBISO true false true false true) = Some x /\
    m !! "disable_printing" = Some (VBool (DisablePrinting x)) /\
    m !! "disable_copy_paste" = Some (VBool (DisableCopyPaste x)) /\
    m !! "disable_download" = Some (VBool (DisableDownload x)) /\
    m !! "disable_upload" = Some (VBool (DisableUpload x)) /\
    m !! "disable_keyboard" = Some (VBool (DisableKeyboard x)).
Proof.
  apply (inflateTeamsRuleBisoAdminControls_one
           (VMap (<["disable_printing" := VBool true]>
                  (<["disable_copy_paste" := VBool false]>
                  (<["disable_download" := VBool true]>
                  (<["disable_upload" := VBool false]>
                  (<["disable_keyboard" := VBool true]> ∅))))))).
  reflexivity.
Defined.

Lemma inflateTeamsCheckSessionSettings_one_witness :
  exists (m : gmap string value) (enforce : bool) (durationString : string),
    VMap (<["enforce" := VBool true]> (<["duration" := VString "0s"]> ∅)) = VMap m /\
    m !! "enforce" = Some (VBool enforce) /\
    m !! "duration" = Some (VString durationString) /\
    Some {| Enforce := true; Duration := 0 |}
    = (fun dur => {| Enforce := enforce; Duration := dur |})
        <$> @ParseDuration sampleExternals durationString.
Proof.
  apply (@inflateTeamsCheckSessionSettings_one sampleExternals
           (VMap (<["enforce" := VBool true]> (<["duration" := VString "0s"]> ∅)))).
  reflexivity.
Defined.

Lemma sample_schema_accepts :
  Forall (fun key => @setError sampleExternals key = None) storedKeys.
Proof. repeat constructor. Qed.

Lemma read_success_witness :
  @run (Diagnostics * ResourceData) acceptingClient
    (@resourceCloudflareTeamsRuleRead sampleExternals sampleData) tt
  = (Returned ([], @storedData sampleExternals sampleRule sampleData),
     [request (CallTeamsRule "acct" EmptyString)], tt) /\
  rd_precedence (@storedData sampleExternals sampleRule sampleData) = 12%Z.
Proof.
  destruct (@read_success sampleExternals acceptingClient tt tt sampleData sampleRule
              eq_refl sample_schema_accepts) as (Hrun & _ & _ & Hprec).
  split; [exact Hrun | rewrite Hprec; reflexivity].
Defined.

Lemma read_diagnostics_witness :
  exists diags d',
    @run (Diagnostics * ResourceData) acceptingClient
      (@resourceCloudflareTeamsRuleRead sampleExternals sampleData) tt
    = (Returned (diags, d'), [request (CallTeamsRule "acct" EmptyString)], tt) /\
    diags = [].
Proof.
  destruct (@read_diagnostics sampleExternals acceptingClient tt tt sampleData sampleRule
              eq_refl) as (diags & d' & Hrun & _ & Hnone & _).
  exists diags, d'. split; [exact Hrun | apply Hnone, sample_schema_accepts].
Defined.

Lemma update_client_error_witness :
  exists wrapped : error,
    @run (Diagnostics * ResourceData) (failingClient "conflict")
      (@resourceCloudflareTeamsRuleUpdate sampleExternals (SetId "rule-1" sampleData)) tt
    = (Returned (FromErr wrapped, SetId "rule-1" sampleData),
       [request (CallTeamsUpdateRule "acct" "rule-1"
                   (@ruleFromData sampleExternals "rule-1" None (SetId "rule-1" sampleData)))],
       tt) /\
    Unwrap wrapped = Some (errorString "conflict").
Proof.
  destruct (@update_client_error sampleExternals (failingClient "conflict") tt tt
              (SetId "rule-1" sampleData) None sampleRule (errorString "conflict")
              eq_refl eq_refl) as (wrapped & Hrun & Hunwrap & _).
  exists wrapped. split; assumption.
Defined.

Lemma update_empty_id_witness :
  @run (Diagnostics * ResourceData) storeClient
    (@resourceCloudflareTeamsRuleUpdate sampleExternals sampleData) None
  = (Returned
       (FromErr (errorString
          "failed to find Teams Rule ID in update response; resource was empty"),
        sampleData),
     [request (CallTeamsUpdateRule "acct" EmptyString
                 (@ruleFromData sampleExternals EmptyString None sampleData))],
     Some (@ruleFromData sampleExternals EmptyString None sampleData)).
Proof.
  apply (@update_empty_id sampleExternals storeClient None
           (Some (@ruleFromData sampleExternals EmptyString None sampleData))
           sampleData None (@ruleFromData sampleExternals EmptyString None sampleData));
    reflexivity.
Defined.

Lemma delete_client_error_witness :
  exists wrapped : error,
    @run (Diagnostics * ResourceData) (failingClient "forbidden")
      (@resourceCloudflareTeamsRuleDelete sampleExternals (SetId "rule-1" sampleData)) tt
    = (Returned (FromErr wrapped, SetId "rule-1" sampleData),
       [request (CallTeamsDeleteRule "acct" "rule-1")], tt) /\
    Unwrap wrapped = Some (errorString "forbidden").
Proof.
  destruct (@delete_client_error sampleExternals (failingClient "forbidden") tt tt
              (SetId "rule-1" sampleData) (errorString "forbidden") eq_refl)
    as (wrapped & Hrun & Hunwrap & _).
  exists wrapped. split; assumption.
Defined.

Lemma create_success_witness :
  exists diags d',
    @run (Diagnostics * ResourceData) storeClient
      (@resourceCloudflareTeamsRuleCreate sampleExternals sampleData) None
    = (Returned (diags, d'),
       [request (CallTeamsCreateRule "acct"
                   (@ruleFromData sampleExternals EmptyString None sampleData));
        request (CallTeamsRule "acct" "rule-1")],
       Some (withID "rule-1" (@ruleFromData sampleExternals EmptyString None sampleData))) /\
    rd_account_id d' = "acct" /\
    rd_Id d' = "rule-1".
Proof.
  exact (@create_success sampleExternals storeClient None
           (Some (withID "rule-1" (@ruleFromData sampleExternals EmptyString None sampleData)))
           sampleData None
           (withID "rule-1" (@ruleFromData sampleExternals EmptyString None sampleData))
           eq_refl eq_refl).
Defined.

Lemma create_keeps_precedence_witness :
  exists d',
    @run (Diagnostics * ResourceData) storeClient
      (@resourceCloudflareTeamsRuleCreate sampleExternals sampleData) None
    = (Returned ([], d'),
       [request (CallTeamsCreateRule "acct"
                   (@ruleFromData sampleExternals EmptyString None sampleData));
        request (CallTeamsRule "acct" "rule-1")],
       Some (withID "rule-1" (@ruleFromData sampleExternals EmptyString None sampleData))) /\
    rd_precedence d' = 12%Z /\
    rd_name d' = "block-ads" /\
    rd_Id d' = "rule-1".
Proof.
  apply (@create_keeps_precedence sampleExternals storeClient None
           (Some (withID "rule-1" (@ruleFromData sampleExternals EmptyString None sampleData)))
           (Some (withID "rule-1" (@ruleFromData sampleExternals EmptyString None sampleData)))
           sampleData None
           (withID "rule-1" (@ruleFromData sampleExternals EmptyString None sampleData))
           (withID "rule-1" (@ruleFromData sampleExternals EmptyString None sampleData)));
    try reflexivity; try exact sample_schema_accepts;
    vm_compute; split; discriminate.
Defined.

Lemma delete_then_lookup_fails_witness :
  @run (Diagnostics * ResourceData) storeClient
    (@resourceCloudflareTeamsRuleDelete sampleExternals (SetId "rule-1" sampleData))
    (Some sampleRule)
  = (Returned ([], SetId EmptyString sampleData),
     [request (CallTeamsDeleteRule "acct" "rule-1");
      request (CallTeamsRule "acct" "rule-1")], None).
Proof.
  exact (@delete_then_lookup_fails sampleExternals storeClient (Some sampleRule) None None
           (SetId "rule-1" sampleData) sampleRule (errorString "invalid rule id")
           eq_refl eq_refl).
Defined.

Lemma delete_then_rule_found_witness :
  @run (Diagnostics * ResourceData) acceptingClient
    (@resourceCloudflareTeamsRuleDelete sampleExternals (SetId "rule-1" sampleData)) tt
  = (Returned ([], @storedData sampleExternals sampleRule (SetId "rule-1" sampleData)),
     [request (CallTeamsDeleteRule "acct" "rule-1");
      request (CallTeamsRule "acct" "rule-1")], tt) /\
  rd_Id (@storedData sampleExternals sampleRule (SetId "rule-1" sampleData)) = "rule-1".
Proof.
  exact (@delete_then_rule_found sampleExternals acceptingClient tt tt tt
           (SetId "rule-1" sampleData) sampleRule eq_refl eq_refl sample_schema_accepts).
Defined.
